(** * Transaction database of mediaire_toolbox: migrations and lifecycle

    A shallow embedding of [mediaire_toolbox/transaction_db/migrations.py]
    and [mediaire_toolbox/transaction_db/transaction_db.py].

    The SQLAlchemy session is modelled as a small state-and-exception
    monad over a pair of stores: the durable one (what has been committed)
    and the one the open transaction works on.  [commit] copies the working
    store over the durable one, [rollback] and [close] do the opposite.
    The session also records a trace of what was asked of it, so that
    ordering properties of the migration engine can be stated. *)

From stdpp Require Import gmap strings list sorting.

Local Open Scope string_scope.
Local Open Scope Z_scope.
Local Open Scope list_scope.

(** ** SQL values, tables and the statements used by the migrations *)

Module Sql.

Inductive value :=
| VNull
| VInt (n : Z)
| VText (s : string).

#[global] Instance value_eq_dec : EqDecision value.
Proof. solve_decision. Defined.

Inductive sql_type := INT | TEXT.

Record column_def := ColumnDef {
  col_name : string;
  col_type : sql_type;
  col_default : value  (* VNull when the column declares no DEFAULT *)
}.

(** A row maps column names to values; a table is its column list and its
    rows in storage order. *)
Record table := Table {
  columns : list column_def;
  rows : list (gmap string value)
}.

Inductive condition :=
| CEq (column : string) (lit : value)    (* column = lit  *)
| CNe (column : string) (lit : value).   (* column != lit *)

Inductive sql_command :=
| AlterTableAddColumn (tbl column : string) (ty : sql_type) (dflt : option value)
| Update (tbl column : string) (v : value) (where_ : condition).

Definition has_column (t : table) (c : string) : bool :=
  bool_decide (c ∈ col_name <$> columns t).

Definition cell (r : gmap string value) (c : string) : value :=
  default VNull (r !! c).

(** SQL comparison is three-valued: comparing with NULL is unknown. *)
Definition sql_eq (a b : value) : option bool :=
  match a, b with
  | VNull, _ | _, VNull => None
  | _, _ => Some (bool_decide (a = b))
  end.

Definition cond_column (w : condition) : string :=
  match w with CEq c _ | CNe c _ => c end.

(** A WHERE clause selects a row only when it evaluates to true. *)
Definition eval_condition (w : condition) (r : gmap string value) : bool :=
  match w with
  | CEq c lit => default false (sql_eq (cell r c) lit)
  | CNe c lit => default false (negb <$> sql_eq (cell r c) lit)
  end.

Definition command_table (c : sql_command) : string :=
  match c with AlterTableAddColumn tn _ _ _ | Update tn _ _ _ => tn end.

Definition command_column (c : sql_command) : string :=
  match c with AlterTableAddColumn _ cn _ _ | Update _ cn _ _ => cn end.

(** What a statement does to one row: ADD COLUMN fills the new column with
    its default, UPDATE rewrites the rows its WHERE clause selects. *)
Definition row_effect (c : sql_command) (r : gmap string value)
  : gmap string value :=
  match c with
  | AlterTableAddColumn _ cn _ d => <[cn := default VNull d]> r
  | Update _ cn v w => if eval_condition w r then <[cn := v]> r else r
  end.

(** One statement against its table; [None] is a statement error: ADD
    COLUMN of a column that exists, UPDATE naming a column that does not. *)
Definition exec_on_table (c : sql_command) (t : table) : option table :=
  match c with
  | AlterTableAddColumn _ cn ty d =>
      if has_column t cn then None
      else Some {| columns := columns t ++ [ColumnDef cn ty (default VNull d)];
                   rows := row_effect c <$> rows t |}
  | Update _ cn v w =>
      if has_column t cn && has_column t (cond_column w)
      then Some {| columns := columns t; rows := row_effect c <$> rows t |}
      else None
  end.

(** One statement against the database; a missing table is an error too. *)
Definition exec_command (c : sql_command) (db : gmap string table)
  : option (gmap string table) :=
  match db !! command_table c with
  | Some t =>
      match exec_on_table c t with
      | Some t' => Some (<[command_table c := t']> db)
      | None => None
      end
  | None => None
  end.

(** INSERT of a row that names only some columns: the others take their
    declared default. *)
Definition insert_row (given : gmap string value) (t : table) : table :=
  {| columns := columns t;
     rows := rows t ++
       [list_to_map ((λ cd, (col_name cd,
                             default (col_default cd) (given !! col_name cd)))
                     <$> columns t)] |}.

End Sql.

Import Sql.

(** ** The session monad *)

Inductive exn :=
| OperationalError (statement : sql_command)
| KeyError (key : Z)
| ScriptError (version : Z) (index : nat)
| TransactionDBException (msg : string).

Inductive result (A : Type) :=
| Ok (a : A)
| Raise (e : exn).
Arguments Ok {A} a.
Arguments Raise {A} e.

Inductive event :=
| EvInfoApplying (version : Z)     (* logger.info in the DDL loop *)
| EvExecute (command : sql_command)
| EvSetVersion (version : Z)
| EvCommit
| EvRollback
| EvClose
| EvWarnStarted (version : Z)      (* logger.warning before the scripts *)
| EvScript (version : Z) (index : nat)
| EvLogException
| EvWarnFinished.

Record session (S : Type) := Session {
  committed : S;          (* durable state of the database *)
  working : S;            (* state seen inside the open transaction *)
  trace : list event;     (* newest event last *)
  ticks : nat             (* number of clock readings so far *)
}.
Arguments Session {S} _ _ _ _.
Arguments committed {S} _.
Arguments working {S} _.
Arguments trace {S} _.
Arguments ticks {S} _.

Definition M (S A : Type) : Type := session S → result A * session S.

Definition ret {S A} (a : A) : M S A := λ s, (Ok a, s).

Definition bind {S A B} (m : M S A) (k : A → M S B) : M S B :=
  λ s, match m s with
       | (Ok a, s') => k a s'
       | (Raise e, s') => (Raise e, s')
       end.

Definition raise {S A} (e : exn) : M S A := λ s, (Raise e, s).

(** [try: m except e: h e] *)
Definition try_except {S A} (m : M S A) (h : exn → M S A) : M S A :=
  λ s, match m s with
       | (Ok a, s') => (Ok a, s')
       | (Raise e, s') => h e s'
       end.

Notation "x <- m ;; k" := (bind m (λ x, k))
  (at level 100, m at next level, right associativity).
Notation "m ;;; k" := (bind m (λ _, k))
  (at level 100, right associativity).

Definition emit {S} (ev : event) : M S unit :=
  λ s, (Ok tt, Session (committed s) (working s) (trace s ++ [ev]) (ticks s)).

Definition read {S} : M S S := λ s, (Ok (working s), s).

Definition put_working {S} (w : S) : M S unit :=
  λ s, (Ok tt, Session (committed s) w (trace s) (ticks s)).

Definition commit {S} : M S unit :=
  λ s, (Ok tt, Session (working s) (working s) (trace s ++ [EvCommit]) (ticks s)).

Definition rollback {S} : M S unit :=
  λ s, (Ok tt,
        Session (committed s) (committed s) (trace s ++ [EvRollback]) (ticks s)).

Definition close {S} : M S unit :=
  λ s, (Ok tt,
        Session (committed s) (committed s) (trace s ++ [EvClose]) (ticks s)).

(** [for x in xs: body x] *)
Fixpoint for_each {S A} (xs : list A) (body : A → M S unit) : M S unit :=
  match xs with
  | [] => ret tt
  | x :: xs' => body x ;;; for_each xs' body
  end.

(** Python's [range(a, b)]. *)
Definition range (a b : Z) : list Z := seqZ a (b - a).

(** ** migrations.py and the migration engine *)

Module Migrations.

(** [MIGRATIONS]: the statements to issue, keyed by target version. *)
Definition MIGRATIONS : gmap Z (list sql_command) :=
  list_to_map [
    (2, [ AlterTableAddColumn "transactions" "task_progress" INT (Some (VInt 0));
          Update "transactions" "task_progress" (VInt 10)
                 (CEq "processing_state" (VText "spm_lesion"));
          Update "transactions" "task_progress" (VInt 10)
                 (CEq "processing_state" (VText "spm_volumetry"));
          Update "transactions" "task_progress" (VInt 80)
                 (CEq "processing_state" (VText "volumetry_assessment"));
          Update "transactions" "task_progress" (VInt 90)
                 (CEq "processing_state" (VText "report"));
          Update "transactions" "task_progress" (VInt 100)
                 (CEq "processing_state" (VText "send_to_pacs")) ]);
    (3, [ AlterTableAddColumn "transactions" "task_skipped" INT (Some (VInt 0)) ]);
    (4, [ AlterTableAddColumn "transactions" "task_cancelled" INT (Some (VInt 0)) ]);
    (5, [ AlterTableAddColumn "transactions" "status" TEXT None;
          AlterTableAddColumn "transactions" "institution" TEXT None;
          AlterTableAddColumn "transactions" "sequences" TEXT None;
          Update "transactions" "status" (VText "sent_to_pacs")
                 (CEq "processing_state" (VText "send_to_pacs"));
          Update "transactions" "status" (VText "unseen")
                 (CNe "processing_state" (VText "send_to_pacs")) ])
  ].

(** The database as the engine sees it: the tables and the singleton row
    of [schema_version]. *)
Record store := Store {
  tables : gmap string table;
  schema_version : Z
}.

(** A migration script gets the session and the reflected model and
    rewrites rows; it may raise. *)
Definition script : Type := gmap string table → option (gmap string table).

(** [session.execute(command)] *)
Definition execute (command : sql_command) : M store unit :=
  emit (EvExecute command) ;;;
  w <- read ;;
  match exec_command command (tables w) with
  | Some db => put_working (Store db (schema_version w))
  | None => raise (OperationalError command)
  end.

(** [db_version.schema_version = version] *)
Definition set_schema_version (version : Z) : M store unit :=
  emit (EvSetVersion version) ;;;
  w <- read ;;
  put_working (Store (tables w) version).

(** [migrations.MIGRATIONS[version]] *)
Definition lookup_migration (version : Z) : M store (list sql_command) :=
  match MIGRATIONS !! version with
  | Some commands => ret commands
  | None => raise (KeyError version)
  end.

Section Engine.

(** [mediaire_toolbox.constants.TRANSACTIONS_DB_SCHEMA_VERSION] and
    [migrations.MIGRATIONS_SCRIPTS] are not part of the files at hand; the
    engine is parameterised by them. *)
Variable TRANSACTIONS_DB_SCHEMA_VERSION : Z.
Variable MIGRATIONS_SCRIPTS : gmap Z (list script).

(** [script(session, model)] *)
Definition run_script (version : Z) (index : nat) (f : script) : M store unit :=
  emit (EvScript version index) ;;;
  w <- read ;;
  match f (tables w) with
  | Some db => put_working (Store db (schema_version w))
  | None => raise (ScriptError version index)
  end.

(** Body of the loop of [migrate_scripts]. *)
Definition scripts_of_version (version : Z) : M store unit :=
  try_except
    (for_each (imap pair (default [] (MIGRATIONS_SCRIPTS !! version)))
              (λ p, run_script version p.1 p.2) ;;;
     commit)
    (λ e, rollback ;;; close ;;; emit EvLogException ;;; raise e).

Definition migrate_scripts (current_version target_version : Z) : M store unit :=
  for_each (range (current_version + 1) (target_version + 1))
           scripts_of_version ;;;
  close.

(** Body of the first loop of [migrate]. *)
Definition ddl_of_version (version : Z) : M store unit :=
  emit (EvInfoApplying version) ;;;
  try_except
    (commands <- lookup_migration version ;;
     for_each commands execute ;;;
     set_schema_version version ;;;
     commit)
    (λ e, rollback ;;; close ;;; raise e).

Definition migrate : M store unit :=
  db_version <- read ;;
  let from_schema_version := schema_version db_version in
  for_each (range (from_schema_version + 1)
                  (TRANSACTIONS_DB_SCHEMA_VERSION + 1))
           ddl_of_version ;;;
  for_each (range (from_schema_version + 1)
                  (TRANSACTIONS_DB_SCHEMA_VERSION + 1))
           (λ version,
              emit (EvWarnStarted version) ;;;
              migrate_scripts from_schema_version
                              TRANSACTIONS_DB_SCHEMA_VERSION ;;;
              emit EvWarnFinished).

End Engine.

(** *** What a run of statements computes *)

Fixpoint exec_all (commands : list sql_command) (db : gmap string table)
  : option (gmap string table) :=
  match commands with
  | [] => Some db
  | c :: cs => match exec_command c db with
               | Some db' => exec_all cs db'
               | None => None
               end
  end.

Definition apply_step (version : Z) (db : gmap string table)
  : option (gmap string table) :=
  match MIGRATIONS !! version with
  | Some commands => exec_all commands db
  | None => None
  end.

Fixpoint apply_steps (versions : list Z) (db : gmap string table)
  : option (gmap string table) :=
  match versions with
  | [] => Some db
  | v :: vs => match apply_step v db with
               | Some db' => apply_steps vs db'
               | None => None
               end
  end.

(** The events of one successful DDL step. *)
Definition step_trace (version : Z) : list event :=
  EvInfoApplying version ::
  (EvExecute <$> default [] (MIGRATIONS !! version)) ++
  [EvSetVersion version; EvCommit].

End Migrations.

(** ** transaction_db.py: the lifecycle operations *)

Module Lifecycle.

(** [mediaire_toolbox.task_state.TaskState] *)
Inductive TaskState := queued | processing | completed | failed.

#[global] Instance TaskState_eq_dec : EqDecision TaskState.
Proof. solve_decision. Defined.

(** The mapped class [Transaction], without its primary key
    [transaction_id], which is the key of the table below.  Dates are
    instants on the clock; [None] is Python's [None]. *)
Record Transaction := {
  task_state : TaskState;
  processing_state : string;
  task_progress : Z;
  task_skipped : Z;
  task_cancelled : Z;
  archived : Z;
  status : option string;
  error : option string;
  last_message : option string;
  creation_date : option Z;
  start_date : option Z;
  end_date : option Z;
  product_id : option Z;
  analysis_type : option string;
  qa_score : option string;
  billable : option string;
  priority : Z;
  patient_consent : Z
}.

(** Attribute assignment [t.field = v]. *)
Definition assign_task_state (v : TaskState) (t : Transaction) : Transaction :=
  {| task_state := v;
     processing_state := processing_state t;
     task_progress := task_progress t;
     task_skipped := task_skipped t;
     task_cancelled := task_cancelled t;
     archived := archived t;
     status := status t;
     error := error t;
     last_message := last_message t;
     creation_date := creation_date t;
     start_date := start_date t;
     end_date := end_date t;
     product_id := product_id t;
     analysis_type := analysis_type t;
     qa_score := qa_score t;
     billable := billable t;
     priority := priority t;
     patient_consent := patient_consent t |}.

Definition assign_processing_state (v : string) (t : Transaction) : Transaction :=
  {| task_state := task_state t;
     processing_state := v;
     task_progress := task_progress t;
     task_skipped := task_skipped t;
     task_cancelled := task_cancelled t;
     archived := archived t;
     status := status t;
     error := error t;
     last_message := last_message t;
     creation_date := creation_date t;
     start_date := start_date t;
     end_date := end_date t;
     product_id := product_id t;
     analysis_type := analysis_type t;
     qa_score := qa_score t;
     billable := billable t;
     priority := priority t;
     patient_consent := patient_consent t |}.

Definition assign_task_progress (v : Z) (t : Transaction) : Transaction :=
  {| task_state := task_state t;
     processing_state := processing_state t;
     task_progress := v;
     task_skipped := task_skipped t;
     task_cancelled := task_cancelled t;
     archived := archived t;
     status := status t;
     error := error t;
     last_message := last_message t;
     creation_date := creation_date t;
     start_date := start_date t;
     end_date := end_date t;
     product_id := product_id t;
     analysis_type := analysis_type t;
     qa_score := qa_score t;
     billable := billable t;
     priority := priority t;
     patient_consent := patient_consent t |}.

Definition assign_task_skipped (v : Z) (t : Transaction) : Transaction :=
  {| task_state := task_state t;
     processing_state := processing_state t;
     task_progress := task_progress t;
     task_skipped := v;
     task_cancelled := task_cancelled t;
     archived := archived t;
     status := status t;
     error := error t;
     last_message := last_message t;
     creation_date := creation_date t;
     start_date := start_date t;
     end_date := end_date t;
     product_id := product_id t;
     analysis_type := analysis_type t;
     qa_score := qa_score t;
     billable := billable t;
     priority := priority t;
     patient_consent := patient_consent t |}.

Definition assign_task_cancelled (v : Z) (t : Transaction) : Transaction :=
  {| task_state := task_state t;
     processing_state := processing_state t;
     task_progress := task_progress t;
     task_skipped := task_skipped t;
     task_cancelled := v;
     archived := archived t;
     status := status t;
     error := error t;
     last_message := last_message t;
     creation_date := creation_date t;
     start_date := start_date t;
     end_date := end_date t;
     product_id := product_id t;
     analysis_type := analysis_type t;
     qa_score := qa_score t;
     billable := billable t;
     priority := priority t;
     patient_consent := patient_consent t |}.

Definition assign_archived (v : Z) (t : Transaction) : Transaction :=
  {| task_state := task_state t;
     processing_state := processing_state t;
     task_progress := task_progress t;
     task_skipped := task_skipped t;
     task_cancelled := task_cancelled t;
     archived := v;
     status := status t;
     error := error t;
     last_message := last_message t;
     creation_date := creation_date t;
     start_date := start_date t;
     end_date := end_date t;
     product_id := product_id t;
     analysis_type := analysis_type t;
     qa_score := qa_score t;
     billable := billable t;
     priority := priority t;
     patient_consent := patient_consent t |}.

Definition assign_status (v : option string) (t : Transaction) : Transaction :=
  {| task_state := task_state t;
     processing_state := processing_state t;
     task_progress := task_progress t;
     task_skipped := task_skipped t;
     task_cancelled := task_cancelled t;
     archived := archived t;
     status := v;
     error := error t;
     last_message := last_message t;
     creation_date := creation_date t;
     start_date := start_date t;
     end_date := end_date t;
     product_id := product_id t;
     analysis_type := analysis_type t;
     qa_score := qa_score t;
     billable := billable t;
     priority := priority t;
     patient_consent := patient_consent t |}.

Definition assign_error (v : option string) (t : Transaction) : Transaction :=
  {| task_state := task_state t;
     processing_state := processing_state t;
     task_progress := task_progress t;
     task_skipped := task_skipped t;
     task_cancelled := task_cancelled t;
     archived := archived t;
     status := status t;
     error := v;
     last_message := last_message t;
     creation_date := creation_date t;
     start_date := start_date t;
     end_date := end_date t;
     product_id := product_id t;
     analysis_type := analysis_type t;
     qa_score := qa_score t;
     billable := billable t;
     priority := priority t;
     patient_consent := patient_consent t |}.

Definition assign_last_message (v : option string) (t : Transaction) : Transaction :=
  {| task_state := task_state t;
     processing_state := processing_state t;
     task_progress := task_progress t;
     task_skipped := task_skipped t;
     task_cancelled := task_cancelled t;
     archived := archived t;
     status := status t;
     error := error t;
     last_message := v;
     creation_date := creation_date t;
     start_date := start_date t;
     end_date := end_date t;
     product_id := product_id t;
     analysis_type := analysis_type t;
     qa_score := qa_score t;
     billable := billable t;
     priority := priority t;
     patient_consent := patient_consent t |}.

Definition assign_creation_date (v : option Z) (t : Transaction) : Transaction :=
  {| task_state := task_state t;
     processing_state := processing_state t;
     task_progress := task_progress t;
     task_skipped := task_skipped t;
     task_cancelled := task_cancelled t;
     archived := archived t;
     status := status t;
     error := error t;
     last_message := last_message t;
     creation_date := v;
     start_date := start_date t;
     end_date := end_date t;
     product_id := product_id t;
     analysis_type := analysis_type t;
     qa_score := qa_score t;
     billable := billable t;
     priority := priority t;
     patient_consent := patient_consent t |}.

Definition assign_start_date (v : option Z) (t : Transaction) : Transaction :=
  {| task_state := task_state t;
     processing_state := processing_state t;
     task_progress := task_progress t;
     task_skipped := task_skipped t;
     task_cancelled := task_cancelled t;
     archived := archived t;
     status := status t;
     error := error t;
     last_message := last_message t;
     creation_date := creation_date t;
     start_date := v;
     end_date := end_date t;
     product_id := product_id t;
     analysis_type := analysis_type t;
     qa_score := qa_score t;
     billable := billable t;
     priority := priority t;
     patient_consent := patient_consent t |}.

Definition assign_end_date (v : option Z) (t : Transaction) : Transaction :=
  {| task_state := task_state t;
     processing_state := processing_state t;
     task_progress := task_progress t;
     task_skipped := task_skipped t;
     task_cancelled := task_cancelled t;
     archived := archived t;
     status := status t;
     error := error t;
     last_message := last_message t;
     creation_date := creation_date t;
     start_date := start_date t;
     end_date := v;
     product_id := product_id t;
     analysis_type := analysis_type t;
     qa_score := qa_score t;
     billable := billable t;
     priority := priority t;
     patient_consent := patient_consent t |}.

Definition assign_product_id (v : option Z) (t : Transaction) : Transaction :=
  {| task_state := task_state t;
     processing_state := processing_state t;
     task_progress := task_progress t;
     task_skipped := task_skipped t;
     task_cancelled := task_cancelled t;
     archived := archived t;
     status := status t;
     error := error t;
     last_message := last_message t;
     creation_date := creation_date t;
     start_date := start_date t;
     end_date := end_date t;
     product_id := v;
     analysis_type := analysis_type t;
     qa_score := qa_score t;
     billable := billable t;
     priority := priority t;
     patient_consent := patient_consent t |}.

Definition assign_analysis_type (v : option string) (t : Transaction) : Transaction :=
  {| task_state := task_state t;
     processing_state := processing_state t;
     task_progress := task_progress t;
     task_skipped := task_skipped t;
     task_cancelled := task_cancelled t;
     archived := archived t;
     status := status t;
     error := error t;
     last_message := last_message t;
     creation_date := creation_date t;
     start_date := start_date t;
     end_date := end_date t;
     product_id := product_id t;
     analysis_type := v;
     qa_score := qa_score t;
     billable := billable t;
     priority := priority t;
     patient_consent := patient_consent t |}.

Definition assign_qa_score (v : option string) (t : Transaction) : Transaction :=
  {| task_state := task_state t;
     processing_state := processing_state t;
     task_progress := task_progress t;
     task_skipped := task_skipped t;
     task_cancelled := task_cancelled t;
     archived := archived t;
     status := status t;
     error := error t;
     last_message := last_message t;
     creation_date := creation_date t;
     start_date := start_date t;
     end_date := end_date t;
     product_id := product_id t;
     analysis_type := analysis_type t;
     qa_score := v;
     billable := billable t;
     priority := priority t;
     patient_consent := patient_consent t |}.

(** The tables the operations touch: [transactions] keyed by
    [transaction_id], the ids present in [users], and the association rows
    of [users_transactions] as (user_id, transaction_id). *)
Record store := Store {
  transactions : gmap Z Transaction;
  users : gset Z;
  user_transactions : list (Z * Z)
}.

(** Python truthiness of the values that are tested with [if x:]. *)
Definition truthy_str (s : option string) : bool :=
  match s with
  | Some s => negb (String.eqb s "")
  | None => false
  end.

Definition truthy_int (n : option Z) : bool :=
  match n with
  | Some n => negb (Z.eqb n 0)
  | None => false
  end.

Definition is_set {A} (d : option A) : bool :=
  match d with Some _ => true | None => false end.

(** The id the store assigns to an inserted row: one more than the largest
    id in the table. *)
Definition next_transaction_id (m : gmap Z Transaction) : Z :=
  1 + foldr Z.max 0 (fst <$> map_to_list m).

(** [session.add(t)] for a new transaction; the id is known after the
    flush. *)
Definition add_transaction (t : Transaction) : M store Z :=
  w <- read ;;
  let id := next_transaction_id (transactions w) in
  put_working (Store (<[id := t]> (transactions w)) (users w)
                     (user_transactions w)) ;;;
  ret id.

(** The session tracks a loaded object: its changed attributes reach the
    working store. *)
Definition update_transaction (id_ : Z) (t : Transaction) : M store unit :=
  w <- read ;;
  put_working (Store (<[id_ := t]> (transactions w)) (users w)
                     (user_transactions w)).

(** [session.delete(t)] *)
Definition delete_transaction (id_ : Z) : M store unit :=
  w <- read ;;
  put_working (Store (delete id_ (transactions w)) (users w)
                     (user_transactions w)).

(** [session.add(ut)] for a [UserTransaction] *)
Definition add_user_transaction (user_id transaction_id : Z) : M store unit :=
  w <- read ;;
  put_working (Store (transactions w) (users w)
                     (user_transactions w ++ [(user_id, transaction_id)])).

Definition _get_transaction_or_raise_exception (id_ : Z) : M store Transaction :=
  w <- read ;;
  match transactions w !! id_ with
  | Some t => ret t
  | None => raise (TransactionDBException "transaction doesn't exist in DB")
  end.

(** What [peek_queued] returns: one row (or [None]), or the whole query
    when [peek_all] is set. *)
Inductive peeked :=
| PeekOne (t : option (Z * Transaction))
| PeekAll (q : list (Z * Transaction)).

(** [order_by(Transaction.transaction_id.asc())] *)
Definition id_le (a b : Z * Transaction) : Prop := (a.1 ≤ b.1)%Z.

#[global] Instance id_le_dec : RelDecision id_le.
Proof. intros a b. unfold id_le. apply _. Defined.

Definition order_by_transaction_id_asc (q : list (Z * Transaction))
  : list (Z * Transaction) :=
  merge_sort id_le q.

(** The query built by [peek_queued]. *)
Definition queued_query (processing_state_ : option string) (w : store)
  : list (Z * Transaction) :=
  let query := filter (λ r, task_state r.2 = queued)
                      (map_to_list (transactions w)) in
  let query := filter (λ r, archived r.2 = 0) query in
  let query :=
    if truthy_str processing_state_
    then filter (λ r, Some (processing_state r.2) = processing_state_) query
    else query in
  order_by_transaction_id_asc query.

(** [peek_queued(processing_state, peek_all)].  A query object is always
    true, so the final [return None] of the source is never reached;
    [first()] gives [None] on an empty result.  The decorators [lock] (a
    reentrant lock, here single-threaded) and [t_db_retry] (not part of
    the files at hand) are left out of all operations. *)
Definition peek_queued (processing_state_ : option string) (peek_all : bool)
  : M store peeked :=
  w <- read ;;
  let queued_ := queued_query processing_state_ w in
  ret (if peek_all then PeekAll queued_ else PeekOne (head queued_)).

(** The call [peek_queued()]: [processing_state] defaults to ['waiting']
    and [peek_all] to [False]. *)
Definition peek_queued_default : M store peeked :=
  peek_queued (Some "waiting") false.

Section Operations.

(** The clock: [clock n] is what the [n]-th reading of
    [datetime.now(timezone.utc)] gives. *)
Variable clock : nat → Z.

(** [json.loads], the assignment of ['t_id'] and [json.dumps]; [None] when
    either raises.  [index.set_index_sequences] is not part of the files at
    hand. *)
Variable json_set_t_id : string → Z → option string.
Variable set_index_sequences : Transaction → result Transaction.

Definition utcnow : M store Z :=
  λ s, (Ok (clock (ticks s)),
        Session (committed s) (working s) (trace s) (S (ticks s))).

(** [create_transaction].  The handler tests [t.transaction_id], which the
    first commit assigns and before which nothing raises: the handler is
    attached from that point on, where the test succeeds unless the id
    is 0. *)
Definition create_transaction (t : Transaction) (user_id : option Z)
    (product_id_ : option Z) (analysis_type_ : option string)
    (qa_score_ : option string) (processing_state_ : string)
    (task_state_ : string) : M store Z :=
  let t := if String.eqb task_state_ "failed"
           then assign_task_state failed t
           else assign_task_state queued t in
  let t := assign_processing_state processing_state_ t in
  t <- (if is_set (creation_date t) then ret t
        else now <- utcnow ;; ret (assign_creation_date (Some now) t)) ;;
  let t := if truthy_int product_id_ then assign_product_id product_id_ t else t in
  let t := if truthy_str analysis_type_
           then assign_analysis_type analysis_type_ t else t in
  let t := if truthy_str qa_score_ then assign_qa_score qa_score_ t else t in
  transaction_id <- add_transaction t ;;
  commit ;;;
  try_except
    ((if truthy_int user_id then
        w <- read ;;
        if bool_decide (default 0 user_id ∈ users w)
        then add_user_transaction (default 0 user_id) transaction_id
        else raise (TransactionDBException "The provided user doesn't exist")
      else ret tt) ;;;
     commit ;;;
     let t :=
       if truthy_str (last_message t)
       then match json_set_t_id (default "" (last_message t)) transaction_id with
            | Some lm => assign_last_message (Some lm) t
            | None => t
            end
       else t in
     t <- (match set_index_sequences t with
           | Ok t' => ret t'
           | Raise e => raise e
           end) ;;
     update_transaction transaction_id t ;;;
     commit ;;;
     ret transaction_id)
    (λ e,
       rollback ;;;
       (if negb (Z.eqb transaction_id 0)
        then delete_transaction transaction_id else ret tt) ;;;
       raise e).

(** [set_processing] *)
Definition set_processing (id_ : Z) (new_processing_state : string)
    (last_message_ : option string) (task_progress_ : Z) : M store unit :=
  try_except
    (t <- _get_transaction_or_raise_exception id_ ;;
     let t := assign_processing_state new_processing_state t in
     let t := assign_task_state processing t in
     let t := assign_last_message last_message_ t in
     let t := assign_task_cancelled 0 t in
     let t := assign_task_skipped 0 t in
     let t := assign_task_progress task_progress_ t in
     t <- (if is_set (start_date t) then ret t
           else now <- utcnow ;; ret (assign_start_date (Some now) t)) ;;
     update_transaction id_ t ;;;
     commit)
    (λ e, rollback ;;; raise e).

(** [set_completed] *)
Definition set_completed (id_ : Z) (clear_error : bool) : M store unit :=
  try_except
    (t <- _get_transaction_or_raise_exception id_ ;;
     let t := assign_task_state completed t in
     let t := if negb (truthy_str (status t)) ||
                 bool_decide (status t = Some "")
              then assign_status (Some "unseen") t else t in
     t <- (if is_set (start_date t) then ret t
           else now <- utcnow ;; ret (assign_start_date (Some now) t)) ;;
     t <- (if is_set (end_date t) then ret t
           else now <- utcnow ;; ret (assign_end_date (Some now) t)) ;;
     let t := if clear_error then assign_error (Some "") t else t in
     update_transaction id_ t ;;;
     commit)
    (λ e, rollback ;;; raise e).

(** [set_archived] *)
Definition set_archived (id_ : Z) : M store unit :=
  try_except
    (t <- _get_transaction_or_raise_exception id_ ;;
     let t := assign_archived 1 t in
     update_transaction id_ t ;;;
     commit)
    (λ e, rollback ;;; raise e).

End Operations.

End Lifecycle.

(** ** Readings of the session trace, and sample stores *)

Module Readings.
Import Migrations.

(** [true] when every assignment of the schema version happens while no
    executed statement still awaits its commit: the statements of a step
    have been committed on their own before the counter moves. *)
Fixpoint counter_moves_after_commit (pending : bool) (tr : list event) : bool :=
  match tr with
  | [] => true
  | EvExecute _ :: tr' => counter_moves_after_commit true tr'
  | EvCommit :: tr' | EvRollback :: tr' | EvClose :: tr' =>
      counter_moves_after_commit false tr'
  | EvSetVersion _ :: tr' =>
      negb pending && counter_moves_after_commit pending tr'
  | _ :: tr' => counter_moves_after_commit pending tr'
  end.

(** Number of commits in a trace. *)
Fixpoint commits (tr : list event) : nat :=
  match tr with
  | [] => 0
  | EvCommit :: tr' => S (commits tr')
  | _ :: tr' => commits tr'
  end.

(** Number of times the script [index] of [version] was called. *)
Fixpoint script_runs (version : Z) (index : nat) (tr : list event) : nat :=
  match tr with
  | [] => 0
  | EvScript v i :: tr' =>
      (if bool_decide (v = version ∧ i = index) then 1 else 0)%nat
      + script_runs version index tr'
  | _ :: tr' => script_runs version index tr'
  end.

(** A session with nothing pending. *)
Definition clean_session {S} (st : S) : session S := Session st st [] 0.

Definition sample_row (id : Z) (stage : value) : gmap string value :=
  list_to_map [("transaction_id", VInt id); ("processing_state", stage)].

(** A [transactions] table as schema version 1 has it. *)
Definition transactions_v1 : table :=
  Table [ColumnDef "transaction_id" INT VNull;
         ColumnDef "processing_state" TEXT VNull]
        [sample_row 1 (VText "report");
         sample_row 2 (VText "send_to_pacs");
         sample_row 3 (VText "waiting")].

Definition db_v1 : gmap string table := {[ "transactions" := transactions_v1 ]}.

(** A version 1 table in which the second row has no stage: its
    [processing_state] is NULL. *)
Definition transactions_v1_unstaged : table :=
  Table [ColumnDef "transaction_id" INT VNull;
         ColumnDef "processing_state" TEXT VNull]
        [sample_row 1 (VText "report");
         sample_row 2 VNull].

Definition db_v1_unstaged : gmap string table :=
  {[ "transactions" := transactions_v1_unstaged ]}.

(** The same database brought to version 3. *)
Definition db_v3 : gmap string table :=
  default ∅ (apply_steps [2; 3] db_v1).

(** A version 2 database on which the step to version 4 fails: the column
    it adds is already there. *)
Definition db_v2_with_cancelled : gmap string table :=
  default ∅ (exec_command
               (AlterTableAddColumn "transactions" "task_cancelled" INT None)
               (default ∅ (apply_steps [2] db_v1))).

(** A backfill script that is not idempotent: it adds one to every
    [task_progress]. *)
Definition bump_progress : script := λ db,
  match db !! "transactions" with
  | Some t =>
      Some (<["transactions" :=
               Table (columns t)
                     ((λ r, match cell r "task_progress" with
                            | VInt n => <["task_progress" := VInt (n + 1)]> r
                            | _ => r
                            end) <$> rows t)]> db)
  | None => None
  end.

(** [task_progress] of every row of [transactions]. *)
Definition progress_column (db : gmap string table) : list value :=
  match db !! "transactions" with
  | Some t => (λ r, cell r "task_progress") <$> rows t
  | None => []
  end.

End Readings.

(** ** The statements of a step, seen on one table and on one row *)

Module Rows.

Fixpoint exec_all_on_table (commands : list sql_command) (t : table)
  : option table :=
  match commands with
  | [] => Some t
  | c :: cs => match exec_on_table c t with
               | Some t' => exec_all_on_table cs t'
               | None => None
               end
  end.

(** The statements applied to a row, in order. *)
Definition row_effects (commands : list sql_command) (r : gmap string value)
  : gmap string value :=
  foldl (λ acc c, row_effect c acc) r commands.

(** The same, with every WHERE clause evaluated on the row [r0]. *)
Definition row_effect_from (r0 : gmap string value) (c : sql_command)
    (acc : gmap string value) : gmap string value :=
  match c with
  | AlterTableAddColumn _ cn _ d => <[cn := default VNull d]> acc
  | Update _ cn v w => if eval_condition w r0 then <[cn := v]> acc else acc
  end.

(** The statements of versions 2 to 5, in order. *)
Definition all_commands : list sql_command :=
  concat ((λ v, default [] (Migrations.MIGRATIONS !! v)) <$> [2; 3; 4; 5]).

End Rows.

(** ** Eligibility for [peek_queued], and sample transactions *)

Module Queue.
Import Lifecycle.

(** A row of the table is eligible under a stage filter: it is queued and
    not archived, and has the stage asked for when the filter is a
    non-empty string. *)
Definition eligible (filter_ : option string) (w : store)
    (p : Z * Transaction) : Prop :=
  transactions w !! p.1 = Some p.2 ∧
  task_state p.2 = queued ∧
  archived p.2 = 0 ∧
  match filter_ with
  | Some st => st ≠ "" → processing_state p.2 = st
  | None => True
  end.

(** A freshly built [Transaction()] carrying a name for its payload. *)
Definition new_transaction (payload : string) : Transaction :=
  {| task_state := queued; processing_state := ""; task_progress := 0;
     task_skipped := 0; task_cancelled := 0; archived := 0;
     status := None; error := None; last_message := Some payload;
     creation_date := None; start_date := None; end_date := None;
     product_id := None; analysis_type := None; qa_score := None;
     billable := None; priority := 0; patient_consent := 0 |}.

Definition empty_store : store := Store ∅ ∅ [].

(** A queued row in the given stage. *)
Definition queued_in (stage : string) : Transaction :=
  assign_processing_state stage (new_transaction "{}").

(** Three transactions created in sequence, all waiting. *)
Definition three_waiting : store :=
  Store (list_to_map [(1, queued_in "waiting"); (2, queued_in "waiting");
                      (3, queued_in "waiting")]) ∅ [].

(** Two queued rows, none of them waiting. *)
Definition two_in_other_stages : store :=
  Store (list_to_map [(1, queued_in "report"); (2, queued_in "brain_segmentation")])
        ∅ [].

(** A clock that starts at 1000 and advances by one at each reading. *)
Definition sample_clock (n : nat) : Z := 1000 + Z.of_nat n.

End Queue.

(** ** transaction_db.py: the other operations on transactions *)

(** [try: m finally: f] *)
Definition try_finally {S A} (m : M S A) (f : M S unit) : M S A :=
  λ s, match m s with
       | (r, s') =>
           match f s' with
           | (Ok _, s'') => (r, s'')
           | (Raise e, s'') => (Raise e, s'')
           end
       end.

Module Transitions.
Import Lifecycle.

Definition assign_billable (v : option string) (t : Transaction) : Transaction :=
  {| task_state := task_state t;
     processing_state := processing_state t;
     task_progress := task_progress t;
     task_skipped := task_skipped t;
     task_cancelled := task_cancelled t;
     archived := archived t;
     status := status t;
     error := error t;
     last_message := last_message t;
     creation_date := creation_date t;
     start_date := start_date t;
     end_date := end_date t;
     product_id := product_id t;
     analysis_type := analysis_type t;
     qa_score := qa_score t;
     billable := v;
     priority := priority t;
     patient_consent := patient_consent t |}.

Definition assign_priority (v : Z) (t : Transaction) : Transaction :=
  {| task_state := task_state t;
     processing_state := processing_state t;
     task_progress := task_progress t;
     task_skipped := task_skipped t;
     task_cancelled := task_cancelled t;
     archived := archived t;
     status := status t;
     error := error t;
     last_message := last_message t;
     creation_date := creation_date t;
     start_date := start_date t;
     end_date := end_date t;
     product_id := product_id t;
     analysis_type := analysis_type t;
     qa_score := qa_score t;
     billable := billable t;
     priority := v;
     patient_consent := patient_consent t |}.

Definition assign_patient_consent (v : Z) (t : Transaction) : Transaction :=
  {| task_state := task_state t;
     processing_state := processing_state t;
     task_progress := task_progress t;
     task_skipped := task_skipped t;
     task_cancelled := task_cancelled t;
     archived := archived t;
     status := status t;
     error := error t;
     last_message := last_message t;
     creation_date := creation_date t;
     start_date := start_date t;
     end_date := end_date t;
     product_id := product_id t;
     analysis_type := analysis_type t;
     qa_score := qa_score t;
     billable := billable t;
     priority := priority t;
     patient_consent := v |}.

(** [get_transaction]: the lookup, and a commit whatever its outcome. *)
Definition get_transaction (id_ : Z) : M store Transaction :=
  try_finally (_get_transaction_or_raise_exception id_) commit.

(** [set_queued] *)
Definition set_queued (id_ : Z) (last_message_ : option string)
    (processing_state_ : string) : M store unit :=
  try_except
    (t <- _get_transaction_or_raise_exception id_ ;;
     let t := assign_task_state queued t in
     let t := assign_processing_state processing_state_ t in
     let t := if truthy_str last_message_
              then assign_last_message last_message_ t else t in
     update_transaction id_ t ;;;
     commit)
    (λ e, rollback ;;; raise e).

(** [set_status] *)
Definition set_status (id_ : Z) (status_ : option string) : M store unit :=
  try_except
    (t <- _get_transaction_or_raise_exception id_ ;;
     let t := assign_status status_ t in
     update_transaction id_ t ;;;
     commit)
    (λ e, rollback ;;; raise e).

(** [set_skipped] *)
Definition set_skipped (id_ : Z) (cause : option string) : M store unit :=
  try_except
    (t <- _get_transaction_or_raise_exception id_ ;;
     let t := assign_task_skipped 1 t in
     let t := if truthy_str cause then assign_error cause t else t in
     update_transaction id_ t ;;;
     commit)
    (λ e, rollback ;;; raise e).

(** [set_cancelled] *)
Definition set_cancelled (id_ : Z) (cause : option string) : M store unit :=
  try_except
    (t <- _get_transaction_or_raise_exception id_ ;;
     let t := assign_task_cancelled 1 t in
     let t := if truthy_str cause then assign_error cause t else t in
     update_transaction id_ t ;;;
     commit)
    (λ e, rollback ;;; raise e).

(** [set_last_message] *)
Definition set_last_message (id_ : Z) (last_message_ : option string)
  : M store unit :=
  try_except
    (t <- _get_transaction_or_raise_exception id_ ;;
     let t := assign_last_message last_message_ t in
     update_transaction id_ t ;;;
     commit)
    (λ e, rollback ;;; raise e).

(** [set_patient_consent] *)
Definition set_patient_consent (id_ : Z) : M store unit :=
  try_except
    (t <- _get_transaction_or_raise_exception id_ ;;
     let t := assign_patient_consent 1 t in
     update_transaction id_ t ;;;
     commit)
    (λ e, rollback ;;; raise e).

(** [unset_patient_consent] *)
Definition unset_patient_consent (id_ : Z) : M store unit :=
  try_except
    (t <- _get_transaction_or_raise_exception id_ ;;
     let t := assign_patient_consent 0 t in
     update_transaction id_ t ;;;
     commit)
    (λ e, rollback ;;; raise e).

(** [set_qa_score] *)
Definition set_qa_score (id_ : Z) (qa_score_ : option string) : M store unit :=
  try_except
    (t <- _get_transaction_or_raise_exception id_ ;;
     let t := assign_qa_score qa_score_ t in
     update_transaction id_ t ;;;
     commit)
    (λ e, rollback ;;; raise e).

(** [set_billable] *)
Definition set_billable (id_ : Z) (billable_ : option string) : M store unit :=
  try_except
    (t <- _get_transaction_or_raise_exception id_ ;;
     let t := assign_billable billable_ t in
     update_transaction id_ t ;;;
     commit)
    (λ e, rollback ;;; raise e).

(** [set_priority] *)
Definition set_priority (id_ : Z) (priority_ : Z) : M store unit :=
  try_except
    (t <- _get_transaction_or_raise_exception id_ ;;
     let t := assign_priority priority_ t in
     update_transaction id_ t ;;;
     commit)
    (λ e, rollback ;;; raise e).

Section Timed.
Variable clock : nat → Z.

(** [set_failed] *)
Definition set_failed (id_ : Z) (cause : option string) : M store unit :=
  try_except
    (t <- _get_transaction_or_raise_exception id_ ;;
     let t := assign_task_state failed t in
     t <- (if is_set (start_date t) then ret t
           else now <- utcnow clock ;; ret (assign_start_date (Some now) t)) ;;
     t <- (if is_set (end_date t) then ret t
           else now <- utcnow clock ;; ret (assign_end_date (Some now) t)) ;;
     let t := assign_error cause t in
     update_transaction id_ t ;;;
     commit)
    (λ e, rollback ;;; raise e).

End Timed.

(** The message of [_get_transaction_or_raise_exception]. *)
Definition not_found : exn :=
  TransactionDBException "transaction doesn't exist in DB".

(** No peek of the session returns the id, whatever the stage filter, with
    or without [peek_all]. *)
Definition not_peeked (id_ : Z) (s : session store) : Prop :=
  ∀ filter_, ∃ r q,
    peek_queued filter_ false s = (Ok (PeekOne r), s) ∧
    peek_queued filter_ true s = (Ok (PeekAll q), s) ∧
    (∀ p, r = Some p → p.1 ≠ id_) ∧
    (∀ p, p ∈ q → p.1 ≠ id_).

(** A session with uncommitted work: row 2 of [three_waiting] has been
    changed in the open transaction only. *)
Definition pending_session : session store :=
  Session Queue.three_waiting
          (Store (<[2 := Queue.queued_in "report"]>
                    (transactions Queue.three_waiting)) ∅ [])
          [] 0.

(** Three waiting transactions and one user, with id 7. *)
Definition store_with_user : store :=
  Store (transactions Queue.three_waiting) {[7]} [].

(** Stand-ins for the JSON step and the sequence index: the payload is
    kept, the index changes nothing. *)
Definition sample_json (payload : string) (transaction_id : Z)
  : option string := Some payload.

Definition sample_index (t : Transaction) : result Transaction := Ok t.

End Transitions.

(** ** The backfill pass, as a function on the tables *)

Module Passes.
Import Migrations.

(** The scripts of one version, applied in order. *)
Fixpoint apply_scripts (fs : list script) (db : gmap string table)
  : option (gmap string table) :=
  match fs with
  | [] => Some db
  | f :: fs' => match f db with
                | Some db' => apply_scripts fs' db'
                | None => None
                end
  end.

Definition scripts_at (scripts : gmap Z (list script)) (version : Z)
  : list script :=
  default [] (scripts !! version).

(** One call of [migrate_scripts] over the versions [vs]. *)
Fixpoint apply_pass (scripts : gmap Z (list script)) (vs : list Z)
    (db : gmap string table) : option (gmap string table) :=
  match vs with
  | [] => Some db
  | v :: vs' => match apply_scripts (scripts_at scripts v) db with
                | Some db' => apply_pass scripts vs' db'
                | None => None
                end
  end.

(** [n] calls of [migrate_scripts] in a row. *)
Fixpoint apply_passes (scripts : gmap Z (list script)) (vs : list Z)
    (n : nat) (db : gmap string table) : option (gmap string table) :=
  match n with
  | O => Some db
  | S n' => match apply_pass scripts vs db with
            | Some db' => apply_passes scripts vs n' db'
            | None => None
            end
  end.

(** The events of the scripts of one version, of one call of
    [migrate_scripts], and of the second loop of [migrate]. *)
Definition version_trace (scripts : gmap Z (list script)) (version : Z)
  : list event :=
  imap (λ i _, EvScript version i) (scripts_at scripts version) ++ [EvCommit].

Definition pass_trace (scripts : gmap Z (list script)) (vs : list Z)
  : list event :=
  concat (version_trace scripts <$> vs) ++ [EvClose].

Definition backfill_trace (scripts : gmap Z (list script)) (vs : list Z)
  : list event :=
  concat ((λ v, EvWarnStarted v :: pass_trace scripts vs ++ [EvWarnFinished])
          <$> vs).

(** The schema version is the same in the working and the durable store,
    and between [lo] and [hi]. *)
Definition bounded (lo hi : Z) (s : session store) : Prop :=
  schema_version (working s) = schema_version (committed s) ∧
  lo ≤ schema_version (committed s) ≤ hi.

(** A script that fails. *)
Definition failing_script : script := λ _, None.

End Passes.

(** ** transaction_db.py: users, roles, studies and sites *)

Module Tenancy.

(** The mapped classes, with the fields the operations use. *)
Record User := {
  user_id : Z;
  name : string;
  hashed_password : string
}.

Record Role := {
  role_id : string;
  description : string;
  permissions : Z
}.

Record StudiesMetadata := {
  study_id : string;
  origin : string;
  c_move_time : Z
}.

(** The tables, rows in insertion order; [user_roles] holds
    (user_id, role_id) and [user_sites] holds (user_id, site_id). *)
Record store := Store {
  users : list User;
  roles : list Role;
  user_roles : list (Z * string);
  studies_metadata : list StudiesMetadata;
  user_sites : list (Z * Z)
}.

(** The id the store assigns to a new user. *)
Definition next_user_id (l : list User) : Z :=
  1 + foldr Z.max 0 (user_id <$> l).

(** [query(User).filter_by(name=name).first()] *)
Definition user_by_name (n : string) (w : store) : option User :=
  head (filter (λ u, name u = n) (users w)).

(** [query(User).get(user_id)] *)
Definition user_by_id (i : Z) (w : store) : option User :=
  head (filter (λ u, user_id u = i) (users w)).

(** [query(Role).filter_by(role_id=role_id).first()], also
    [query(Role).get(role_id)] *)
Definition role_by_id (r : string) (w : store) : option Role :=
  head (filter (λ x, role_id x = r) (roles w)).

(** [query(UserRole).filter_by(user_id=..).filter_by(role_id=..).first()] *)
Definition user_role_of (i : Z) (r : string) (w : store) : option (Z * string) :=
  head (filter (λ p, p.2 = r) (filter (λ p, p.1 = i) (user_roles w))).

(** [query(StudiesMetadata).filter_by(study_id=study_id).first()] *)
Definition study_by_id (sid : string) (w : store) : option StudiesMetadata :=
  head (filter (λ m, study_id m = sid) (studies_metadata w)).

Definition is_some {A} (o : option A) : bool :=
  match o with Some _ => true | None => false end.

Section Operations.

(** [User.password_hash] is not part of the files at hand. *)
Variable password_hash : string → string.

(** [add_user] *)
Definition add_user (name_ password : string) : M store Z :=
  try_finally
    (w <- read ;;
     (if is_some (user_by_name name_ w)
      then raise (TransactionDBException
                    "A user with the same name already exists")
      else ret tt) ;;;
     let user := {| user_id := next_user_id (users w);
                    name := name_;
                    hashed_password := password_hash password |} in
     put_working (Store (users w ++ [user]) (roles w) (user_roles w)
                        (studies_metadata w) (user_sites w)) ;;;
     commit ;;;
     w <- read ;;
     match user_by_name name_ w with
     | Some user => ret (user_id user)
     | None => raise (TransactionDBException "'NoneType' has no attribute 'id'")
     end)
    rollback.

(** [add_role] *)
Definition add_role (role_id_ role_description : string) (permissions_ : Z)
  : M store unit :=
  try_finally
    (w <- read ;;
     (if is_some (role_by_id role_id_ w)
      then raise (TransactionDBException "The role already exists")
      else ret tt) ;;;
     let role := {| role_id := role_id_;
                    description := role_description;
                    permissions := permissions_ |} in
     put_working (Store (users w) (roles w ++ [role]) (user_roles w)
                        (studies_metadata w) (user_sites w)) ;;;
     commit)
    rollback.

(** [__pre_conditions_user_role] *)
Definition pre_conditions_user_role (user_id_ : Z) (role_id_ : string)
  : M store unit :=
  w <- read ;;
  (if is_some (user_by_id user_id_ w) then ret tt
   else raise (TransactionDBException "The user doesn't exist")) ;;;
  (if is_some (role_by_id role_id_ w) then ret tt
   else raise (TransactionDBException "The role doesn't exist")).

(** [add_user_role] *)
Definition add_user_role (user_id_ : Z) (role_id_ : string) : M store unit :=
  try_finally
    (w <- read ;;
     (if is_some (user_role_of user_id_ role_id_ w)
      then raise (TransactionDBException
                    "The role is already assigned to this user.")
      else ret tt) ;;;
     pre_conditions_user_role user_id_ role_id_ ;;;
     put_working (Store (users w) (roles w)
                        (user_roles w ++ [(user_id_, role_id_)])
                        (studies_metadata w) (user_sites w)) ;;;
     commit)
    rollback.

(** [revoke_user_role] *)
Definition revoke_user_role (user_id_ : Z) (role_id_ : string)
  : M store unit :=
  try_finally
    (w <- read ;;
     (if is_some (user_role_of user_id_ role_id_ w) then ret tt
      else raise (TransactionDBException
                    "The role wasn't assigned to this user.")) ;;;
     put_working (Store (users w) (roles w)
                        (filter (λ p, p ≠ (user_id_, role_id_)) (user_roles w))
                        (studies_metadata w) (user_sites w)) ;;;
     commit)
    rollback.

(** [remove_user] *)
Definition remove_user (user_id_ : Z) : M store unit :=
  try_finally
    (w <- read ;;
     (if is_some (user_by_id user_id_ w) then ret tt
      else raise (TransactionDBException "The user doesn't exist")) ;;;
     put_working (Store (filter (λ u, user_id u ≠ user_id_) (users w))
                        (roles w) (user_roles w)
                        (studies_metadata w) (user_sites w)) ;;;
     commit)
    rollback.

(** [add_study_metadata] *)
Definition add_study_metadata (study_id_ origin_ : string) (c_move_time_ : Z)
    (overwrite : bool) : M store unit :=
  try_finally
    (w <- read ;;
     let md := study_by_id study_id_ w in
     (if is_some md && negb overwrite
      then raise (TransactionDBException "Study was already sent to mdbrain. ")
      else ret tt) ;;;
     let fresh := {| study_id := study_id_; origin := origin_;
                     c_move_time := c_move_time_ |} in
     put_working
       (Store (users w) (roles w) (user_roles w)
              (if is_some md
               then (λ m, if bool_decide (study_id m = study_id_)
                          then fresh else m) <$> studies_metadata w
               else studies_metadata w ++ [fresh])
              (user_sites w)) ;;;
     commit)
    rollback.

(** [get_study_metadata] *)
Definition get_study_metadata (study_id_ : string)
  : M store (option StudiesMetadata) :=
  try_finally (w <- read ;; ret (study_by_id study_id_ w)) commit.

(** [get_user_sites]: the rows of the query it returns, and a commit. *)
Definition get_user_sites (user_id_ : Z) : M store (list (Z * Z)) :=
  try_finally
    (w <- read ;; ret (filter (λ p, p.1 = user_id_) (user_sites w)))
    commit.

(** [set_user_sites] *)
Definition set_user_sites (user_id_ : Z) (site_ids : list Z) : M store unit :=
  try_finally
    (get_user_sites user_id_ ;;;
     w <- read ;;
     put_working (Store (users w) (roles w) (user_roles w)
                        (studies_metadata w)
                        (filter (λ p, p.1 ≠ user_id_) (user_sites w))) ;;;
     for_each site_ids (λ site_id,
       w <- read ;;
       put_working (Store (users w) (roles w) (user_roles w)
                          (studies_metadata w)
                          (user_sites w ++ [(user_id_, site_id)]))) ;;;
     commit)
    rollback.

End Operations.

(** A store with one user, one role and the sites of two users. *)
Definition sample_store : store :=
  Store [{| user_id := 1; name := "alice"; hashed_password := "#a" |}]
        [{| role_id := "admin"; description := "Administrator";
            permissions := 7 |}]
        []
        [{| study_id := "1.2.3"; origin := "pacs"; c_move_time := 10 |}]
        [(1, 100); (2, 200); (1, 101)].

Definition sample_hash (password : string) : string := "#" +:+ password.

End Tenancy.

(** ** Tactics *)

(** Unfold the operations of the session monad. *)
Ltac run := unfold bind, ret, raise, emit, read, put_working, commit,
  rollback, close, try_except; simpl.

(** Evaluate the comparisons of literals in the goal. *)
Ltac decide_literals :=
  repeat match goal with
         | |- context [bool_decide (?a = ?b)] =>
             let v := eval vm_compute in (bool_decide (a = b)) in
             change (bool_decide (a = b)) with v
         end.

(** Reduce the fields of rows built by attribute assignments. *)
Ltac row_fields :=
  cbv beta iota delta
    [Lifecycle.task_state Lifecycle.processing_state Lifecycle.task_progress
     Lifecycle.task_skipped Lifecycle.task_cancelled Lifecycle.archived
     Lifecycle.status Lifecycle.error Lifecycle.last_message
     Lifecycle.creation_date Lifecycle.start_date Lifecycle.end_date
     Lifecycle.product_id Lifecycle.analysis_type Lifecycle.qa_score
     Lifecycle.billable Lifecycle.priority Lifecycle.patient_consent
     Lifecycle.assign_task_state Lifecycle.assign_processing_state
     Lifecycle.assign_task_progress Lifecycle.assign_task_skipped
     Lifecycle.assign_task_cancelled Lifecycle.assign_archived
     Lifecycle.assign_status Lifecycle.assign_error
     Lifecycle.assign_last_message Lifecycle.assign_creation_date
     Lifecycle.assign_start_date Lifecycle.assign_end_date
     Lifecycle.assign_product_id Lifecycle.assign_analysis_type
     Lifecycle.assign_qa_score Transitions.assign_billable
     Transitions.assign_priority Transitions.assign_patient_consent
     default from_option id].

(** Unfold the session operations, [try_finally] included. *)
Ltac run_all := unfold try_finally; run.

(** * Properties of the migration engine *)

Module MigrationFacts.
Import Migrations.

Lemma session_eta {S} (s : session S) :
  Session (committed s) (working s) (trace s) (ticks s) = s.
Proof. by destruct s. Qed.

Lemma store_eta (w : store) : Store (tables w) (schema_version w) = w.
Proof. by destruct w. Qed.

Lemma execute_ok c s db' :
  exec_command c (tables (working s)) = Some db' →
  execute c s =
    (Ok tt, Session (committed s) (Store db' (schema_version (working s)))
                    (trace s ++ [EvExecute c]) (ticks s)).
Proof. intros H. unfold execute. run. by rewrite H. Qed.

Lemma execute_fail c s :
  exec_command c (tables (working s)) = None →
  execute c s =
    (Raise (OperationalError c),
     Session (committed s) (working s) (trace s ++ [EvExecute c]) (ticks s)).
Proof. intros H. unfold execute. run. by rewrite H. Qed.

Lemma for_each_cons {S A} (x : A) xs (body : A → M S unit) s :
  for_each (x :: xs) body s =
    match body x s with
    | (Ok _, s') => for_each xs body s'
    | (Raise e, s') => (Raise e, s')
    end.
Proof. reflexivity. Qed.

Lemma execute_all_ok cmds : ∀ s db',
  exec_all cmds (tables (working s)) = Some db' →
  for_each cmds execute s =
    (Ok tt, Session (committed s) (Store db' (schema_version (working s)))
                    (trace s ++ (EvExecute <$> cmds)) (ticks s)).
Proof.
  induction cmds as [|c cs IH]; intros s db' H; simpl in H.
  - injection H as <-. cbn [for_each]. unfold ret.
    by rewrite store_eta, app_nil_r, session_eta.
  - destruct (exec_command c (tables (working s))) as [db1|] eqn:E; [|done].
    rewrite for_each_cons, (execute_ok _ _ _ E).
    rewrite (IH _ db') by done. simpl. by rewrite <- app_assoc.
Qed.

Lemma execute_all_fail cmds : ∀ s,
  exec_all cmds (tables (working s)) = None →
  ∃ c w tr, for_each cmds execute s =
    (Raise (OperationalError c),
     Session (committed s) w (trace s ++ tr) (ticks s)) ∧
    Forall (λ ev, ∃ c', ev = EvExecute c' ∧ c' ∈ cmds) tr.
Proof.
  induction cmds as [|c cs IH]; intros s H; simpl in H; [done|].
  destruct (exec_command c (tables (working s))) as [db1|] eqn:E.
  - rewrite for_each_cons, (execute_ok _ _ _ E).
    destruct (IH (Session (committed s) (Store db1 (schema_version (working s)))
                          (trace s ++ [EvExecute c]) (ticks s)) H)
      as (c' & w & tr & -> & Htr).
    exists c', w, (EvExecute c :: tr). simpl. split.
    + by rewrite <- app_assoc.
    + constructor; [exists c; split; [done|left] |].
      eapply Forall_impl; [exact Htr|]. intros ev (c'' & -> & ?).
      exists c''. split; [done | by right].
  - rewrite for_each_cons, (execute_fail _ _ E).
    exists c, (working s), [EvExecute c]. split; [done|].
    constructor; [|constructor]. exists c. split; [done|left].
Qed.

Lemma ddl_of_version_ok v s db' :
  apply_step v (tables (working s)) = Some db' →
  ddl_of_version v s =
    (Ok tt, Session (Store db' v) (Store db' v) (trace s ++ step_trace v)
                    (ticks s)).
Proof.
  unfold apply_step, ddl_of_version, step_trace, lookup_migration.
  destruct (MIGRATIONS !! v) as [cmds|] eqn:E; [|done]. intros H.
  unfold bind at 1. unfold emit at 1. unfold try_except.
  unfold bind at 1. unfold ret at 1. unfold bind at 1.
  rewrite (execute_all_ok cmds _ db') by done.
  unfold set_schema_version. run.
  by rewrite <- !app_assoc.
Qed.

Lemma ddl_of_version_fail v s :
  apply_step v (tables (working s)) = None →
  ∃ e tr, ddl_of_version v s =
    (Raise e,
     Session (committed s) (committed s)
             (trace s ++ EvInfoApplying v :: tr ++ [EvRollback; EvClose])
             (ticks s)) ∧
    Forall (λ ev, ∃ c, ev = EvExecute c ∧
                       c ∈ default [] (MIGRATIONS !! v)) tr.
Proof.
  unfold apply_step, ddl_of_version, lookup_migration.
  destruct (MIGRATIONS !! v) as [cmds|] eqn:E; intros H.
  - unfold bind at 1. unfold emit at 1. unfold try_except.
    unfold bind at 1. unfold ret at 1. unfold bind at 1.
    destruct (execute_all_fail cmds
                (Session (committed s) (working s)
                         (trace s ++ [EvInfoApplying v]) (ticks s)) H)
      as (c & w & tr & -> & Htr).
    exists (OperationalError c), tr. run. split; [|done].
    by rewrite <- !app_assoc.
  - exists (KeyError v), []. run. split; [|constructor].
    by rewrite <- !app_assoc.
Qed.

Lemma for_each_app {S A} (xs ys : list A) (body : A → M S unit) : ∀ s,
  for_each (xs ++ ys) body s =
    match for_each xs body s with
    | (Ok _, s') => for_each ys body s'
    | (Raise e, s') => (Raise e, s')
    end.
Proof.
  induction xs as [|x xs IH]; intros s; [done|].
  rewrite <- app_comm_cons, !for_each_cons.
  destruct (body x s) as [[[]|e] s']; [apply IH | done].
Qed.

Lemma ddl_loop_ok vs : ∀ s db',
  working s = committed s →
  apply_steps vs (tables (working s)) = Some db' →
  for_each vs ddl_of_version s =
    (Ok tt,
     Session (Store db' (default (schema_version (working s)) (last vs)))
             (Store db' (default (schema_version (working s)) (last vs)))
             (trace s ++ concat (step_trace <$> vs)) (ticks s)).
Proof.
  induction vs as [|v vs IH]; intros s db' Hclean H; simpl in H.
  - injection H as <-. cbn. unfold ret.
    rewrite store_eta, app_nil_r. rewrite Hclean at 1. by rewrite session_eta.
  - destruct (apply_step v (tables (working s))) as [db1|] eqn:E; [|done].
    rewrite for_each_cons, (ddl_of_version_ok _ _ _ E).
    rewrite (IH _ db') by done. cbn [working schema_version trace ticks].
    rewrite last_cons. cbn [fmap list_fmap concat]. rewrite <- app_assoc.
    by destruct (last vs).
Qed.

Lemma ddl_loop_fail vs1 v vs2 s db_prev :
  working s = committed s →
  apply_steps vs1 (tables (working s)) = Some db_prev →
  apply_step v db_prev = None →
  ∃ e tr,
    for_each (vs1 ++ v :: vs2) ddl_of_version s =
      (Raise e,
       Session (Store db_prev (default (schema_version (working s)) (last vs1)))
               (Store db_prev (default (schema_version (working s)) (last vs1)))
               (trace s ++ concat (step_trace <$> vs1) ++
                  EvInfoApplying v :: tr ++ [EvRollback; EvClose])
               (ticks s)) ∧
    Forall (λ ev, ∃ c, ev = EvExecute c ∧
                       c ∈ default [] (MIGRATIONS !! v)) tr.
Proof.
  intros Hclean H1 Hv.
  rewrite for_each_app, (ddl_loop_ok vs1 s db_prev Hclean H1), for_each_cons.
  match goal with |- context [ddl_of_version v ?s1] =>
    destruct (ddl_of_version_fail v s1 Hv) as (e & tr & -> & Htr) end.
  exists e, tr. split; [|done]. cbn [committed trace ticks].
  by rewrite <- app_assoc.
Qed.

Lemma info_in_step_trace w v : EvInfoApplying w ∈ step_trace v → w = v.
Proof.
  unfold step_trace. rewrite elem_of_cons, elem_of_app, list_elem_of_fmap.
  intros [[= ->]|[(c & [=] & _)|H]]; [done|].
  rewrite !elem_of_cons in H. destruct H as [[=]|[[=]|H]].
  by apply elem_of_nil in H.
Qed.

Lemma info_in_step_traces w vs :
  EvInfoApplying w ∈ concat (step_trace <$> vs) → w ∈ vs.
Proof.
  induction vs as [|v vs IH]; cbn [fmap list_fmap concat].
  - by intros ?%elem_of_nil.
  - rewrite elem_of_app. intros [->%info_in_step_trace|H]; [left|right; auto].
Qed.

Lemma range_split a v b :
  a ≤ v < b → range a b = range a v ++ v :: range (v + 1) b.
Proof.
  intros H. unfold range.
  replace (b - a) with ((v - a) + (b - v)) by lia.
  rewrite seqZ_app by lia. f_equal.
  replace (a + (v - a)) with v by lia.
  rewrite seqZ_cons by lia. do 2 f_equal; lia.
Qed.

Lemma last_range a b : last (range a b) = if decide (a < b) then Some (b - 1) else None.
Proof.
  unfold range. case_decide.
  - replace (b - a) with ((b - a - 1) + 1) by lia.
    rewrite seqZ_app by lia. rewrite (seqZ_cons _ 1) by lia.
    rewrite (seqZ_nil _ (Z.pred 1)) by lia.
    rewrite last_snoc. f_equal. lia.
  - by rewrite seqZ_nil by lia.
Qed.

End MigrationFacts.

Module MigrationClaims.
Import Migrations MigrationFacts Readings.

(** C4: if a statement of the step to version [v] fails (or the step cannot
    be looked up), [migrate] raises; the durable store is the one the last
    successful step left, with the persisted schema version at [v - 1]; the
    failed batch leaves nothing behind (working and durable stores agree);
    and after the rollback and close nothing more is asked of the session:
    no later version is attempted. *)
Theorem C4_failed_step_rolls_back_and_halts
    (T : Z) (scripts : gmap Z (list script)) (s : session store)
    (v : Z) (db_prev : gmap string table) :
  working s = committed s →
  schema_version (committed s) < v ≤ T →
  apply_steps (range (schema_version (committed s) + 1) v)
              (tables (committed s)) = Some db_prev →
  apply_step v db_prev = None →
  ∃ e tr new,
    migrate T scripts s =
      (Raise e,
       Session (Store db_prev (v - 1)) (Store db_prev (v - 1))
               (trace s ++ new) (ticks s)) ∧
    new = concat (step_trace <$> range (schema_version (committed s) + 1) v)
          ++ EvInfoApplying v :: tr ++ [EvRollback; EvClose] ∧
    Forall (λ ev, ∃ c, ev = EvExecute c ∧
                       c ∈ default [] (MIGRATIONS !! v)) tr ∧
    (∀ w, v < w → EvInfoApplying w ∉ new).
Proof.
  intros Hclean Hv Hprev Hfail.
  set (v0 := schema_version (committed s)) in *.
  unfold migrate. unfold bind at 1. unfold read at 1.
  rewrite Hclean. fold v0.
  rewrite (range_split (v0 + 1) v (T + 1)) by lia.
  unfold bind at 1.
  destruct (ddl_loop_fail (range (v0 + 1) v) v (range (v + 1) (T + 1))
              s db_prev Hclean) as (e & tr & -> & Htr).
  { by rewrite Hclean. }
  { done. }
  exists e, tr. eexists. split; [|split; [reflexivity|split; [done|]]].
  - rewrite last_range, Hclean. fold v0.
    case_decide; simpl; [done|]. by replace v0 with (v - 1) by lia.
  - intros w Hw. rewrite elem_of_app, elem_of_cons, elem_of_app.
    intros [Hin|[[= ->]|[Hin|Hin]]].
    + apply info_in_step_traces in Hin. unfold range in Hin.
      apply elem_of_seqZ in Hin. lia.
    + lia.
    + rewrite Forall_forall in Htr. by destruct (Htr _ Hin) as (c & [=] & _).
    + rewrite !elem_of_cons in Hin. destruct Hin as [[=]|[[=]|Hin]].
      by apply elem_of_nil in Hin.
Qed.

Lemma C4_witness :
  ∃ e tr new,
    migrate 5 ∅ (clean_session (Store db_v2_with_cancelled 2)) =
      (Raise e,
       Session (Store (default ∅ (apply_step 3 db_v2_with_cancelled)) (4 - 1))
               (Store (default ∅ (apply_step 3 db_v2_with_cancelled)) (4 - 1))
               ([] ++ new) 0) ∧
    new = concat (step_trace <$> range (2 + 1) 4)
          ++ EvInfoApplying 4 :: tr ++ [EvRollback; EvClose] ∧
    Forall (λ ev, ∃ c, ev = EvExecute c ∧
                       c ∈ default [] (MIGRATIONS !! 4)) tr ∧
    (∀ w, 4 < w → EvInfoApplying w ∉ new).
Proof.
  apply (C4_failed_step_rolls_back_and_halts 5 ∅
           (clean_session (Store db_v2_with_cancelled 2)) 4
           (default ∅ (apply_step 3 db_v2_with_cancelled))).
  - reflexivity.
  - simpl. lia.
  - vm_compute. reflexivity.
  - vm_compute. reflexivity.
Defined.

(** C3, as stated, fails: migrating a version 1 store to version 2 assigns
    the version while the statements of the step are still uncommitted, and
    the whole step is made durable by one commit, not two. *)
Lemma C3_counterexample :
  let out := migrate 2 ∅ (clean_session (Store db_v1 1)) in
  out.1 = Ok tt ∧
  counter_moves_after_commit false (trace out.2) = false ∧
  commits (firstn (length (step_trace 2)) (trace out.2)) = 1%nat ∧
  firstn (length (step_trace 2)) (trace out.2) = step_trace 2.
Proof. vm_compute. repeat split. Qed.

(** C3, amended: a migration step whose statements all succeed executes
    them, then assigns the schema version, then commits once; that single
    commit makes the schema changes and the new version durable together. *)
Theorem C3_step_commits_changes_and_version_together
    (v : Z) (commands : list sql_command) (s : session store)
    (db' : gmap string table) :
  MIGRATIONS !! v = Some commands →
  exec_all commands (tables (working s)) = Some db' →
  ∃ s',
    ddl_of_version v s = (Ok tt, s') ∧
    trace s' = trace s ++ EvInfoApplying v :: (EvExecute <$> commands)
                       ++ [EvSetVersion v; EvCommit] ∧
    commits (EvInfoApplying v :: (EvExecute <$> commands)
             ++ [EvSetVersion v; EvCommit]) = 1%nat ∧
    committed s' = Store db' v ∧
    working s' = committed s'.
Proof.
  intros Hm Hx. eexists. split.
  - apply ddl_of_version_ok. unfold apply_step. rewrite Hm. exact Hx.
  - cbn [trace committed working]. unfold step_trace. rewrite Hm.
    repeat split. cbn [commits]. clear. induction commands; simpl; auto.
Qed.

Lemma C3_witness :
  ∃ s',
    ddl_of_version 3 (clean_session (Store db_v1 2)) = (Ok tt, s') ∧
    trace s' = trace (clean_session (Store db_v1 2))
               ++ EvInfoApplying 3 ::
                  (EvExecute <$> [AlterTableAddColumn "transactions"
                                    "task_skipped" INT (Some (VInt 0))])
               ++ [EvSetVersion 3; EvCommit] ∧
    commits (EvInfoApplying 3 ::
               (EvExecute <$> [AlterTableAddColumn "transactions"
                                 "task_skipped" INT (Some (VInt 0))])
               ++ [EvSetVersion 3; EvCommit]) = 1%nat ∧
    committed s' = Store (default ∅ (apply_step 3 db_v1)) 3 ∧
    working s' = committed s'.
Proof.
  apply (C3_step_commits_changes_and_version_together 3).
  - vm_compute. reflexivity.
  - vm_compute. reflexivity.
Defined.

(** C2 at a failing input: a version 3 store is migrated to version 5 with
    one backfill script declared, for version 5.  The migration succeeds and
    leaves the schema version at 5, but the script is called twice, once
    per version of the range, and each call is committed: every
    [task_progress] has been increased twice. *)
Theorem C2_script_runs_once_per_version_of_the_range :
  let scripts : gmap Z (list script) := {[ 5 := [bump_progress] ]} in
  let out := migrate 5 scripts (clean_session (Store db_v3 3)) in
  out.1 = Ok tt ∧
  schema_version (committed out.2) = 5 ∧
  script_runs 5 0 (trace out.2) = 2%nat ∧
  progress_column db_v3 = [VInt 90; VInt 100; VInt 0] ∧
  progress_column (tables (committed out.2)) = [VInt 92; VInt 102; VInt 2].
Proof. vm_compute. repeat split. Qed.

End MigrationClaims.

(** * Migrating a version 1 store to version 5 *)

Module BackfillFacts.
Import Migrations MigrationFacts Readings Rows.

Lemma exec_all_app cmds1 cmds2 : ∀ db,
  exec_all (cmds1 ++ cmds2) db =
    match exec_all cmds1 db with
    | Some db' => exec_all cmds2 db'
    | None => None
    end.
Proof.
  induction cmds1 as [|c cs IH]; intros db; simpl; [done|].
  destruct (exec_command c db); [apply IH | done].
Qed.

Lemma apply_step_some v db :
  is_Some (MIGRATIONS !! v) →
  apply_step v db = exec_all (default [] (MIGRATIONS !! v)) db.
Proof. intros [c H]. unfold apply_step. by rewrite H. Qed.

Lemma apply_steps_concat vs : ∀ db,
  Forall (λ v, is_Some (MIGRATIONS !! v)) vs →
  apply_steps vs db =
    exec_all (concat ((λ v, default [] (MIGRATIONS !! v)) <$> vs)) db.
Proof.
  induction vs as [|v vs IH]; intros db Hall; [done|].
  inversion Hall as [|? ? Hv Hvs]; subst.
  cbn [apply_steps fmap list_fmap concat].
  rewrite exec_all_app, apply_step_some by done.
  destruct (exec_all _ db); [by apply IH | done].
Qed.

Lemma apply_steps_all db :
  apply_steps (range (1 + 1) (5 + 1)) db = exec_all all_commands db.
Proof.
  change (range (1 + 1) (5 + 1)) with [2; 3; 4; 5].
  apply apply_steps_concat. repeat constructor; vm_compute; eauto.
Qed.

Lemma exec_all_one_table tn cmds : ∀ db t,
  Forall (λ c, command_table c = tn) cmds →
  db !! tn = Some t →
  exec_all cmds db =
    match exec_all_on_table cmds t with
    | Some t' => Some (<[tn := t']> db)
    | None => None
    end.
Proof.
  induction cmds as [|c cs IH]; intros db t Hall Hdb; simpl.
  - by rewrite insert_id.
  - inversion Hall as [|? ? Hc Hcs]; subst. unfold exec_command.
    rewrite Hdb. destruct (exec_on_table c t) as [t'|]; [|done].
    rewrite (IH _ t' Hcs) by apply lookup_insert_eq.
    destruct (exec_all_on_table cs t'); [|done].
    by rewrite insert_insert_eq.
Qed.

Lemma exec_all_on_table_rows cmds : ∀ t t',
  exec_all_on_table cmds t = Some t' →
  rows t' = row_effects cmds <$> rows t.
Proof.
  induction cmds as [|c cs IH]; intros t t' H; simpl in H.
  - injection H as <-. unfold row_effects. simpl.
    by rewrite list_fmap_id.
  - destruct (exec_on_table c t) as [t1|] eqn:E; [|done].
    rewrite (IH _ _ H).
    assert (rows t1 = row_effect c <$> rows t) as ->.
    { destruct c; simpl in E; case_match; by simplify_eq. }
    by rewrite <- list_fmap_compose.
Qed.

(** No statement of the migrations writes [processing_state], so every
    WHERE clause sees the value the row had before the migration. *)
Lemma cell_row_effect_ne c r k :
  command_column c ≠ k → cell (row_effect c r) k = cell r k.
Proof.
  intros Hne. unfold cell.
  destruct c; simpl in *; [|case_match]; by rewrite ?lookup_insert_ne.
Qed.

Lemma row_effects_from r0 cmds : ∀ acc,
  Forall (λ c, command_column c ≠ "processing_state" ∧
               match c with
               | Update _ _ _ w => cond_column w = "processing_state"
               | _ => True
               end) cmds →
  cell acc "processing_state" = cell r0 "processing_state" →
  row_effects cmds acc = foldl (λ a c, row_effect_from r0 c a) acc cmds.
Proof.
  unfold row_effects.
  induction cmds as [|c cs IH]; intros acc Hall Hacc; [done|].
  inversion Hall as [|? ? [Hc Hw] Hcs]; subst. cbn [foldl].
  assert (row_effect c acc = row_effect_from r0 c acc) as Heq.
  { destruct c as [| tn cn v w]; [done|]. simpl.
    assert (eval_condition w acc = eval_condition w r0) as ->; [|done].
    destruct w; simpl in Hw; subst; simpl; by rewrite Hacc. }
  rewrite <- Heq. apply IH; [done|].
  by rewrite cell_row_effect_ne.
Qed.

Lemma all_commands_well_formed :
  Forall (λ c, command_column c ≠ "processing_state" ∧
               match c with
               | Update _ _ _ w => cond_column w = "processing_state"
               | _ => True
               end) all_commands.
Proof. vm_compute. repeat constructor; discriminate. Qed.

Lemma all_commands_one_table :
  Forall (λ c, command_table c = "transactions") all_commands.
Proof. vm_compute. repeat constructor. Qed.

Lemma has_column_snoc cs cd rs c :
  has_column {| columns := cs ++ [cd]; rows := rs |} c =
    has_column {| columns := cs; rows := [] |} c || bool_decide (c = col_name cd).
Proof.
  unfold has_column. cbn [columns]. rewrite fmap_app. cbn.
  apply eq_true_iff_eq.
  rewrite orb_true_iff, !bool_decide_eq_true, elem_of_app, list_elem_of_singleton.
  done.
Qed.

Lemma has_column_bare t c :
  has_column {| columns := columns t; rows := [] |} c = has_column t c.
Proof. reflexivity. Qed.

(** The columns added by versions 2 to 5, in order. *)
Lemma migrated_table t :
  has_column t "processing_state" = true →
  has_column t "task_progress" = false →
  has_column t "task_skipped" = false →
  has_column t "task_cancelled" = false →
  has_column t "status" = false →
  has_column t "institution" = false →
  has_column t "sequences" = false →
  ∃ t', exec_all_on_table all_commands t = Some t' ∧
        columns t' = columns t ++
          [ColumnDef "task_progress" INT (VInt 0);
           ColumnDef "task_skipped" INT (VInt 0);
           ColumnDef "task_cancelled" INT (VInt 0);
           ColumnDef "status" TEXT VNull;
           ColumnDef "institution" TEXT VNull;
           ColumnDef "sequences" TEXT VNull].
Proof.
  intros Hps H1 H2 H3 H4 H5 H6.
  let l := eval vm_compute in all_commands in change all_commands with l.
  repeat (cbn [exec_all_on_table exec_on_table columns cond_column];
          rewrite ?has_column_snoc, ?has_column_bare, ?Hps, ?H1, ?H2, ?H3, ?H4, ?H5, ?H6;
          cbn [col_name orb andb];
          decide_literals; cbn [orb andb]).
  eexists. split; [reflexivity|]. cbn [columns default].
  by rewrite <- !app_assoc.
Qed.

Lemma eval_ne_true r lit :
  cell r "processing_state" ≠ VNull →
  cell r "processing_state" ≠ lit →
  lit ≠ VNull →
  eval_condition (CNe "processing_state" lit) r = true.
Proof.
  intros Hnull Hne Hlit. unfold eval_condition, sql_eq.
  destruct (cell r "processing_state") eqn:E; [done| |];
    (destruct lit; [done| |]); simpl;
    by rewrite ?bool_decide_eq_false_2 by congruence.
Qed.

Lemma migrated_row r :
  let r' := row_effects all_commands r in
  (cell r "processing_state" = VText "report" →
   r' !! "task_progress" = Some (VInt 90)) ∧
  (cell r "processing_state" = VText "send_to_pacs" →
   r' !! "task_progress" = Some (VInt 100) ∧
   r' !! "status" = Some (VText "sent_to_pacs")) ∧
  (cell r "processing_state" ≠ VNull →
   cell r "processing_state" ≠ VText "send_to_pacs" →
   r' !! "status" = Some (VText "unseen")) ∧
  (cell r "processing_state" = VNull →
   r' !! "status" = Some VNull).
Proof.
  intros r'. subst r'.
  rewrite (row_effects_from r) by (apply all_commands_well_formed || done).
  let l := eval vm_compute in all_commands in change all_commands with l.
  cbn [foldl row_effect_from]. split; [|split; [|split]].
  - intros H. unfold eval_condition, sql_eq. rewrite H.
    decide_literals. cbn [default from_option id fmap option_fmap option_map negb].
    by repeat (rewrite lookup_insert_ne by discriminate);
       rewrite lookup_insert_eq.
  - intros H. unfold eval_condition, sql_eq. rewrite H.
    decide_literals. cbn [default from_option id fmap option_fmap option_map negb].
    split.
    + by repeat (rewrite lookup_insert_ne by discriminate);
         rewrite lookup_insert_eq.
    + by repeat (rewrite lookup_insert_ne by discriminate);
         rewrite lookup_insert_eq.
  - intros Hnull Hne. rewrite eval_ne_true by done.
    by rewrite lookup_insert_eq.
  - intros H. unfold eval_condition, sql_eq. rewrite H.
    cbn [default from_option id fmap option_fmap option_map negb].
    by repeat (rewrite lookup_insert_ne by discriminate);
       rewrite lookup_insert_eq.
Qed.

End BackfillFacts.

Module BackfillClaims.
Import Migrations MigrationFacts Readings Rows BackfillFacts.

(** A loop whose body commits nothing new on a session with nothing
    pending leaves the stores as they are. *)
Lemma for_each_idle {S A} (body : A → M S unit) :
  (∀ x s, working s = committed s →
     ∃ tr, body x s =
       (Ok tt, Session (committed s) (committed s) (trace s ++ tr) (ticks s))) →
  ∀ xs s, working s = committed s →
     ∃ tr, for_each xs body s =
       (Ok tt, Session (committed s) (committed s) (trace s ++ tr) (ticks s)).
Proof.
  intros Hbody xs. induction xs as [|x xs IH]; intros s Hs.
  - exists []. cbn. unfold ret. rewrite app_nil_r.
    destruct s; simpl in *. by subst.
  - destruct (Hbody x s Hs) as [tr1 H1].
    rewrite for_each_cons, H1.
    destruct (IH (Session (committed s) (committed s) (trace s ++ tr1) (ticks s))
                 eq_refl) as [tr2 H2].
    exists (tr1 ++ tr2). rewrite H2. cbn. by rewrite app_assoc.
Qed.

Lemma migrate_scripts_idle scripts a b s :
  (∀ v, scripts !! v = None) →
  working s = committed s →
  ∃ tr, migrate_scripts scripts a b s =
    (Ok tt, Session (committed s) (committed s) (trace s ++ tr) (ticks s)).
Proof.
  intros Hnone Hs. unfold migrate_scripts. unfold bind at 1.
  destruct (for_each_idle (scripts_of_version scripts)) with
    (xs := range (a + 1) (b + 1)) (s := s) as [tr ->]; [|done|].
  - intros v s' Hs'. exists [EvCommit].
    unfold scripts_of_version. rewrite Hnone. run. by rewrite Hs'.
  - exists (tr ++ [EvClose]). run. by rewrite app_assoc.
Qed.

(** C1, as stated, fails: "every row with any other [processing_state]"
    takes in a row whose [processing_state] is NULL.  Migrating
    [db_v1_unstaged] from version 1 to version 5 succeeds, and its second
    row, whose stage is NULL and so is not ['send_to_pacs'], is left with
    [status] NULL, not ['unseen']: the statement
    [UPDATE ... WHERE processing_state != 'send_to_pacs'] of step 5 does
    not select it. *)
Lemma C1_counterexample :
  let out := migrate 5 ∅ (clean_session (Store db_v1_unstaged 1)) in
  out.1 = Ok tt ∧
  schema_version (committed out.2) = 5 ∧
  ∃ t', tables (committed out.2) !! "transactions" = Some t' ∧
    ¬ (∀ i r r',
         rows transactions_v1_unstaged !! i = Some r →
         rows t' !! i = Some r' →
         cell r "processing_state" ≠ VText "send_to_pacs" →
         r' !! "status" = Some (VText "unseen")) ∧
    ∃ r r',
      rows transactions_v1_unstaged !! 1%nat = Some r ∧
      rows t' !! 1%nat = Some r' ∧
      cell r "processing_state" = VNull ∧
      r' !! "status" = Some VNull.
Proof.
  cbv zeta. split; [vm_compute; reflexivity|].
  split; [vm_compute; reflexivity|].
  eexists. split; [vm_compute; reflexivity|]. split.
  - intros H.
    specialize (H 1%nat _ _ eq_refl eq_refl).
    assert (cell (sample_row 2 VNull) "processing_state"
            ≠ VText "send_to_pacs") as Hne by (vm_compute; discriminate).
    specialize (H Hne). vm_compute in H. discriminate H.
  - eexists _, _. repeat split; vm_compute; reflexivity.
Qed.

(** C1, amended: [migrate], run to version 5 on a session with nothing
    pending whose store is at version 1, with a [transactions] table of the
    version 1 shape and no migration script declared, succeeds and commits
    version 5.  Rows keep their order; a row whose [processing_state] was
    ['report'] has [task_progress] 90; one whose [processing_state] was
    ['send_to_pacs'] has [task_progress] 100 and [status] ['sent_to_pacs'];
    one with any other [processing_state] that is not NULL has [status]
    ['unseen'], while one whose [processing_state] is NULL is left with
    [status] NULL; and a row inserted afterwards without a [task_progress]
    gets 0. *)
Theorem C1_migration_from_1_to_5
    (scripts : gmap Z (list script)) (s : session store) (t : table) :
  (∀ v, scripts !! v = None) →
  working s = committed s →
  schema_version (committed s) = 1 →
  tables (committed s) !! "transactions" = Some t →
  has_column t "processing_state" = true →
  has_column t "task_progress" = false →
  has_column t "task_skipped" = false →
  has_column t "task_cancelled" = false →
  has_column t "status" = false →
  has_column t "institution" = false →
  has_column t "sequences" = false →
  ∃ s' t',
    migrate 5 scripts s = (Ok tt, s') ∧
    schema_version (committed s') = 5 ∧
    tables (committed s') !! "transactions" = Some t' ∧
    length (rows t') = length (rows t) ∧
    (∀ i r, rows t !! i = Some r →
       ∃ r', rows t' !! i = Some r' ∧
         (cell r "processing_state" = VText "report" →
          r' !! "task_progress" = Some (VInt 90)) ∧
         (cell r "processing_state" = VText "send_to_pacs" →
          r' !! "task_progress" = Some (VInt 100) ∧
          r' !! "status" = Some (VText "sent_to_pacs")) ∧
         (cell r "processing_state" ≠ VNull →
          cell r "processing_state" ≠ VText "send_to_pacs" →
          r' !! "status" = Some (VText "unseen")) ∧
         (cell r "processing_state" = VNull →
          r' !! "status" = Some VNull)) ∧
    (∀ given, given !! "task_progress" = None →
       ∃ r, last (rows (insert_row given t')) = Some r ∧
            r !! "task_progress" = Some (VInt 0)).
Proof.
  intros Hnone Hclean Hv Ht Hps H1 H2 H3 H4 H5 H6.
  destruct (migrated_table t Hps H1 H2 H3 H4 H5 H6) as (t' & Hexec & Hcols).
  pose proof (exec_all_on_table_rows _ _ _ Hexec) as Hrows.
  assert (apply_steps (range (1 + 1) (5 + 1)) (tables (working s)) =
          Some (<["transactions" := t']> (tables (working s)))) as Hsteps.
  { rewrite apply_steps_all.
    rewrite (exec_all_one_table "transactions" _ _ t all_commands_one_table)
      by (by rewrite Hclean).
    by rewrite Hexec. }
  unfold migrate. unfold bind at 1. unfold read at 1. cbn beta iota.
  rewrite Hclean, Hv. unfold bind at 1.
  rewrite (ddl_loop_ok _ _ _ Hclean Hsteps).
  match goal with |- context [for_each _ _ ?s1] =>
    destruct (for_each_idle
      (λ version, emit (EvWarnStarted version) ;;;
                  migrate_scripts scripts 1 5 ;;; emit EvWarnFinished))
      with (xs := range (1 + 1) (5 + 1)) (s := s1) as [tr ->]; [|done|]
  end.
  { intros x s0 Hs0. unfold bind at 1. unfold emit at 1.
    unfold bind at 1.
    match goal with |- context [migrate_scripts _ _ _ ?s1] =>
      destruct (migrate_scripts_idle scripts 1 5 s1 Hnone) as [tr ->];
        [by cbn|] end.
    eexists. run. by rewrite <- !app_assoc. }
  eexists _, t'. split; [reflexivity|]. cbn [committed schema_version tables].
  split; [done|]. split; [apply lookup_insert_eq|].
  split; [by rewrite Hrows, length_fmap|]. split.
  - intros i r Hr. exists (row_effects all_commands r). split.
    + by rewrite Hrows, list_lookup_fmap, Hr.
    + apply migrated_row.
  - intros given Hgiven. unfold insert_row. cbn [rows].
    rewrite last_snoc. eexists. split; [reflexivity|].
    rewrite Hcols, fmap_app, list_to_map_app.
    rewrite lookup_union_r.
    + cbn. by rewrite Hgiven.
    + apply not_elem_of_list_to_map_1. rewrite <- list_fmap_compose.
      unfold has_column in H1. apply bool_decide_eq_false in H1.
      exact H1.
Qed.

Lemma C1_witness :
  ∃ s' t',
    migrate 5 ∅ (clean_session (Store db_v1 1)) = (Ok tt, s') ∧
    schema_version (committed s') = 5 ∧
    tables (committed s') !! "transactions" = Some t' ∧
    length (rows t') = length (rows transactions_v1) ∧
    (∀ i r, rows transactions_v1 !! i = Some r →
       ∃ r', rows t' !! i = Some r' ∧
         (cell r "processing_state" = VText "report" →
          r' !! "task_progress" = Some (VInt 90)) ∧
         (cell r "processing_state" = VText "send_to_pacs" →
          r' !! "task_progress" = Some (VInt 100) ∧
          r' !! "status" = Some (VText "sent_to_pacs")) ∧
         (cell r "processing_state" ≠ VNull →
          cell r "processing_state" ≠ VText "send_to_pacs" →
          r' !! "status" = Some (VText "unseen")) ∧
         (cell r "processing_state" = VNull →
          r' !! "status" = Some VNull)) ∧
    (∀ given, given !! "task_progress" = None →
       ∃ r, last (rows (insert_row given t')) = Some r ∧
            r !! "task_progress" = Some (VInt 0)).
Proof.
  apply (C1_migration_from_1_to_5 ∅ (clean_session (Store db_v1 1))
           transactions_v1).
  - intros v. apply lookup_empty.
  - reflexivity.
  - reflexivity.
  - vm_compute. reflexivity.
  - vm_compute. reflexivity.
  - vm_compute. reflexivity.
  - vm_compute. reflexivity.
  - vm_compute. reflexivity.
  - vm_compute. reflexivity.
  - vm_compute. reflexivity.
  - vm_compute. reflexivity.
Defined.

End BackfillClaims.

(** * Properties of the lifecycle operations *)

Module LifecycleFacts.
Import Lifecycle Queue Readings.

#[global] Instance id_le_total : Total id_le.
Proof. intros a b. unfold id_le. lia. Qed.

#[global] Instance id_le_trans : Transitive id_le.
Proof. intros a b c. unfold id_le. lia. Qed.

Lemma elem_of_queued_query f w p :
  p ∈ queued_query f w ↔ eligible f w p.
Proof.
  unfold queued_query, order_by_transaction_id_asc, eligible.
  rewrite merge_sort_Permutation.
  destruct p as [i t]. cbn [fst snd].
  destruct f as [st|]; cbn [truthy_str].
  - destruct (String.eqb st "") eqn:E; cbn [negb].
    + apply String.eqb_eq in E. subst st.
      rewrite !list_elem_of_filter, elem_of_map_to_list. cbn [fst snd].
      intuition congruence.
    + apply String.eqb_neq in E.
      rewrite !list_elem_of_filter, elem_of_map_to_list. cbn [fst snd].
      intuition congruence.
  - rewrite !list_elem_of_filter, elem_of_map_to_list. cbn [fst snd].
    intuition congruence.
Qed.

Lemma head_sorted_least f w p :
  head (queued_query f w) = Some p →
  ∀ q, q ∈ queued_query f w → p.1 ≤ q.1.
Proof.
  unfold queued_query at 1 2, order_by_transaction_id_asc.
  match goal with |- context [merge_sort id_le ?l] =>
    pose proof (StronglySorted_merge_sort id_le l) as Hs;
    destruct (merge_sort id_le l) as [|x xs] end; [done|].
  intros [= ->] q Hq. inversion Hs as [|? ? _ Hall]; subst.
  apply elem_of_cons in Hq as [->|Hq]; [done|].
  rewrite Forall_forall in Hall. by apply Hall.
Qed.

Lemma queued_query_keys_unique f w p q :
  p ∈ queued_query f w → q ∈ queued_query f w → p.1 = q.1 → p = q.
Proof.
  rewrite !elem_of_queued_query. intros (Hp & _) (Hq & _) Heq.
  destruct p, q; simpl in *. subst. congruence.
Qed.

End LifecycleFacts.

Module LifecycleClaims.
Import Lifecycle Queue Readings LifecycleFacts.

Section Claims.
Variable clock : nat → Z.

(** C6: on an existing id, [set_processing] succeeds and commits the row
    with [task_state] processing, both [task_skipped] and [task_cancelled]
    cleared, and [processing_state], [last_message] and [task_progress]
    overwritten with the arguments; [start_date] is the old one when there
    was one and the clock reading otherwise; and a second [set_processing]
    on the same id, whatever its arguments and whenever it runs, leaves
    [start_date] at the value of the first call. *)
Theorem C6_set_processing
    (s : session store) (id_ : Z) (t : Transaction)
    (stage : string) (payload : option string) (progress : Z) :
  transactions (working s) !! id_ = Some t →
  ∃ s' t',
    set_processing clock id_ stage payload progress s = (Ok tt, s') ∧
    transactions (committed s') !! id_ = Some t' ∧
    working s' = committed s' ∧
    task_state t' = processing ∧
    task_skipped t' = 0 ∧
    task_cancelled t' = 0 ∧
    processing_state t' = stage ∧
    last_message t' = payload ∧
    task_progress t' = progress ∧
    start_date t' = Some (default (clock (ticks s)) (start_date t)) ∧
    (∀ stage2 payload2 progress2, ∃ s'' t'',
       set_processing clock id_ stage2 payload2 progress2 s' = (Ok tt, s'') ∧
       transactions (committed s'') !! id_ = Some t'' ∧
       start_date t'' = start_date t').
Proof.
  intros Ht.
  assert (∀ (s0 : session store) t0 st pl pr,
            transactions (working s0) !! id_ = Some t0 →
            ∃ s' t',
              set_processing clock id_ st pl pr s0 = (Ok tt, s') ∧
              transactions (committed s') !! id_ = Some t' ∧
              working s' = committed s' ∧
              task_state t' = processing ∧ task_skipped t' = 0 ∧
              task_cancelled t' = 0 ∧ processing_state t' = st ∧
              last_message t' = pl ∧ task_progress t' = pr ∧
              start_date t' = Some (default (clock (ticks s0)) (start_date t0)))
    as Hone.
  { intros s0 t0 st pl pr H0.
    unfold set_processing, _get_transaction_or_raise_exception,
      update_transaction, utcnow.
    run. rewrite H0. run.
    destruct (start_date t0) as [d|] eqn:E; run;
      (eexists _, _; split; [reflexivity|]; cbn [committed working transactions];
       split; [apply lookup_insert_eq|]; by rewrite ?E). }
  destruct (Hone s t stage payload progress Ht)
    as (s' & t' & Hrun & Hrow & Hclean & H1 & H2 & H3 & H4 & H5 & H6 & H7).
  exists s', t'. repeat (split; [done|]).
  intros stage2 payload2 progress2.
  destruct (Hone s' t' stage2 payload2 progress2)
    as (s'' & t'' & Hrun2 & Hrow2 & _ & _ & _ & _ & _ & _ & _ & Hd);
    [by rewrite Hclean|].
  exists s'', t''. repeat (split; [done|]).
  by rewrite Hd, H7.
Qed.

(** C7: on an existing id, [set_completed] succeeds and commits the row
    with [task_state] completed; [status] becomes ['unseen'] when it was
    unset ([None] or the empty string) and is kept otherwise, so
    ['reviewed'] stays ['reviewed']; [start_date] and [end_date] are kept
    when set and take a clock reading otherwise; [error] is cleared when
    [clear_error] is true and kept when it is false. *)
Theorem C7_set_completed
    (s : session store) (id_ : Z) (t : Transaction) (clear_error : bool) :
  transactions (working s) !! id_ = Some t →
  ∃ s' t',
    set_completed clock id_ clear_error s = (Ok tt, s') ∧
    transactions (committed s') !! id_ = Some t' ∧
    working s' = committed s' ∧
    task_state t' = completed ∧
    (status t = None ∨ status t = Some "" → status t' = Some "unseen") ∧
    (∀ st, status t = Some st → st ≠ "" → status t' = Some st) ∧
    (status t = Some "reviewed" → status t' = Some "reviewed") ∧
    start_date t' = Some (default (clock (ticks s)) (start_date t)) ∧
    end_date t' =
      Some (default (clock (if is_set (start_date t)
                            then ticks s else S (ticks s)))
                    (end_date t)) ∧
    error t' = (if clear_error then Some "" else error t).
Proof.
  intros Ht.
  unfold set_completed, _get_transaction_or_raise_exception,
    update_transaction, utcnow.
  run. rewrite Ht. run.
  destruct (status t) as [[|a st]|] eqn:Es; run;
    destruct (start_date t) as [d1|] eqn:E1; run;
    destruct (end_date t) as [d2|] eqn:E2; run;
    destruct clear_error; run;
    (eexists _, _; split; [reflexivity|];
     cbn [committed working transactions];
     split; [apply lookup_insert_eq|]; cbn; rewrite ?Es, ?E1, ?E2;
     repeat split; try done; try (by intros [|]); by intros ? [= <-]).
Qed.

(** C9: on an existing id, [set_archived] succeeds and commits the table
    in which that row has [archived] set and every other field, among them
    [task_state], as before; other rows and tables are untouched; and no
    peek of the resulting session returns the row, whatever the stage
    filter and with or without [peek_all]. *)
Theorem C9_set_archived (s : session store) (id_ : Z) (t : Transaction) :
  transactions (working s) !! id_ = Some t →
  ∃ s',
    set_archived id_ s = (Ok tt, s') ∧
    committed s' =
      Store (<[id_ := {| task_state := task_state t;
                         processing_state := processing_state t;
                         task_progress := task_progress t;
                         task_skipped := task_skipped t;
                         task_cancelled := task_cancelled t;
                         archived := 1;
                         status := status t;
                         error := error t;
                         last_message := last_message t;
                         creation_date := creation_date t;
                         start_date := start_date t;
                         end_date := end_date t;
                         product_id := product_id t;
                         analysis_type := analysis_type t;
                         qa_score := qa_score t;
                         billable := billable t;
                         priority := priority t;
                         patient_consent := patient_consent t |}]>
               (transactions (working s)))
            (users (working s)) (user_transactions (working s)) ∧
    working s' = committed s' ∧
    (∀ filter_, ∃ r q,
       peek_queued filter_ false s' = (Ok (PeekOne r), s') ∧
       peek_queued filter_ true s' = (Ok (PeekAll q), s') ∧
       (∀ p, r = Some p → p.1 ≠ id_) ∧
       (∀ p, p ∈ q → p.1 ≠ id_)).
Proof.
  intros Ht.
  unfold set_archived, _get_transaction_or_raise_exception, update_transaction.
  run. rewrite Ht. run.
  eexists. split; [reflexivity|]. cbn [committed working].
  split; [reflexivity|]. split; [reflexivity|].
  intros f. eexists _, _. unfold peek_queued. run.
  split; [reflexivity|]. split; [reflexivity|].
  assert (∀ p, p ∈ queued_query f
            (Store (<[id_ := assign_archived 1 t]> (transactions (working s)))
                   (users (working s)) (user_transactions (working s))) →
               p.1 ≠ id_) as Hq.
  { intros p Hp Heq.
    apply elem_of_queued_query in Hp as (Hrow & _ & Harch & _).
    cbn [transactions] in Hrow. rewrite Heq, lookup_insert_eq in Hrow.
    injection Hrow as Hrow. by rewrite <- Hrow in Harch. }
  split; [|exact Hq].
  intros p Hp. apply Hq. by apply head_Some_elem_of.
Qed.

(** C8: [peek_queued] with a stage filter (and without [peek_all]) returns
    the session as it got it, so it changes nothing and a second call
    returns the same; what it returns is an eligible row whose id is the
    least among the eligible rows, and the only eligible row with that id;
    it returns [None] exactly when no row is eligible. *)
Theorem C8_peek_queued (s : session store) (filter_ : option string) :
  ∃ r,
    peek_queued filter_ false s = (Ok (PeekOne r), s) ∧
    (r1 <- peek_queued filter_ false ;;
     r2 <- peek_queued filter_ false ;;
     ret (r1, r2)) s = (Ok (PeekOne r, PeekOne r), s) ∧
    (∀ p, r = Some p →
       eligible filter_ (working s) p ∧
       (∀ q, eligible filter_ (working s) q → p.1 ≤ q.1) ∧
       (∀ q, eligible filter_ (working s) q → q.1 ≤ p.1 → q = p)) ∧
    (r = None ↔ ∀ q, ¬ eligible filter_ (working s) q).
Proof.
  exists (head (queued_query filter_ (working s))).
  split; [reflexivity|]. split; [reflexivity|]. split.
  - intros p Hp.
    pose proof (head_Some_elem_of _ _ Hp) as Hin.
    pose proof (head_sorted_least _ _ _ Hp) as Hleast.
    split; [by apply elem_of_queued_query|]. split.
    + intros q Hq. by apply Hleast, elem_of_queued_query.
    + intros q Hq Hle. apply elem_of_queued_query in Hq.
      symmetry. apply (queued_query_keys_unique filter_ (working s)); try done.
      specialize (Hleast q Hq). lia.
  - rewrite head_None. split.
    + intros Hnil q Hq. apply elem_of_queued_query in Hq.
      rewrite Hnil in Hq. by apply elem_of_nil in Hq.
    + intros Hnone. destruct (queued_query filter_ (working s)) as [|p l] eqn:E;
        [done|]. exfalso. apply (Hnone p), elem_of_queued_query.
      rewrite E. left.
Qed.

(** C10: the call [peek_queued()] is [peek_queued('waiting')]: it only
    ever returns a queued, non-archived row in stage ['waiting']; on a
    store whose rows are all queued and non-archived but in other stages
    it returns [None], although a peek with the filter [None] or [''] finds
    a row there; with [None] or [''] the stage is not looked at, and with
    any other string it is. *)
Theorem C10_default_stage_filter_is_waiting :
  (∀ s, peek_queued_default s = peek_queued (Some "waiting") false s) ∧
  (∀ s, ∃ r, peek_queued_default s = (Ok (PeekOne r), s) ∧
     ∀ p, r = Some p →
       task_state p.2 = queued ∧ archived p.2 = 0 ∧
       processing_state p.2 = "waiting") ∧
  (let s := clean_session two_in_other_stages in
   Forall (λ p : Z * Transaction,
             task_state p.2 = queued ∧ archived p.2 = 0 ∧
             processing_state p.2 ≠ "waiting")
          (map_to_list (transactions (working s))) ∧
   length (map_to_list (transactions (working s))) = 2%nat ∧
   peek_queued_default s = (Ok (PeekOne None), s) ∧
   peek_queued None false s =
     (Ok (PeekOne (Some (1, queued_in "report"))), s) ∧
   peek_queued (Some "") false s =
     (Ok (PeekOne (Some (1, queued_in "report"))), s)) ∧
  (∀ w p, eligible None w p ↔ eligible (Some "") w p) ∧
  (∀ w p, eligible None w p ↔
          transactions w !! p.1 = Some p.2 ∧ task_state p.2 = queued ∧
          archived p.2 = 0) ∧
  (∀ st w p, st ≠ "" → p ∈ queued_query (Some st) w →
             processing_state p.2 = st).
Proof.
  split; [done|]. split; [|split; [|split; [|split]]].
  - intros s. exists (head (queued_query (Some "waiting") (working s))).
    split; [reflexivity|]. intros p Hp.
    apply head_Some_elem_of, elem_of_queued_query in Hp
      as (_ & Hq & Ha & Hst).
    repeat split; try done. by apply Hst.
  - cbv zeta. split; [|split; [|split; [|split]]].
    + vm_compute map_to_list.
      repeat (apply Forall_cons; split;
              [split; [done|split; [done|discriminate]]|]).
      by apply Forall_nil.
    + by vm_compute.
    + by vm_compute.
    + by vm_compute.
    + by vm_compute.
  - intros w p. unfold eligible. intuition congruence.
  - intros w p. unfold eligible. intuition congruence.
  - intros st w p Hst Hp. apply elem_of_queued_query in Hp as (_ & _ & _ & H).
    by apply H.
Qed.

End Claims.

(** C5 at a failing input: [create_transaction] for a user id that no user
    has, on an empty store.  It raises the not-found error, but the row was
    committed before the user was looked up: it is still in the durable
    store, queued.  The handler's [session.delete] is only pending in the
    session and is never committed there; the next operation that fails
    and rolls back (here [set_archived] on an unknown id) discards it, and
    the row is then peeked like any queued transaction. *)
Theorem C5_failed_create_leaves_row_in_store
    (clock : nat → Z) (json_set_t_id : string → Z → option string)
    (set_index_sequences : Transaction → result Transaction) :
  let out := create_transaction clock json_set_t_id set_index_sequences
               (new_transaction "{}") (Some 7) None None None
               "waiting" "queued" (clean_session empty_store) in
  let row := assign_creation_date (Some (clock 0%nat)) (queued_in "waiting") in
  let after := set_archived 99 out.2 in
  out.1 = Raise (TransactionDBException "The provided user doesn't exist") ∧
  transactions (committed out.2) !! 1 = Some row ∧
  transactions (working out.2) !! 1 = None ∧
  user_transactions (committed out.2) = [] ∧
  after.1 = Raise (TransactionDBException "transaction doesn't exist in DB") ∧
  transactions (working after.2) !! 1 = Some row ∧
  (peek_queued_default after.2).1 = Ok (PeekOne (Some (1, row))).
Proof. vm_compute. repeat split. Qed.

Lemma C6_witness :
  ∃ s' t',
    set_processing sample_clock 2 "report" (Some "{}") 90
                   (clean_session three_waiting) = (Ok tt, s') ∧
    transactions (committed s') !! 2 = Some t' ∧
    task_state t' = processing ∧
    start_date t' = Some 1000.
Proof.
  destruct (C6_set_processing sample_clock (clean_session three_waiting) 2
              (queued_in "waiting") "report" (Some "{}") 90)
    as (s' & t' & H1 & H2 & _ & H3 & _ & _ & _ & _ & _ & H4 & _).
  - vm_compute. reflexivity.
  - exists s', t'. repeat split; assumption.
Defined.

Lemma C7_witness :
  ∃ s' t',
    set_completed sample_clock 2 true (clean_session three_waiting)
      = (Ok tt, s') ∧
    transactions (committed s') !! 2 = Some t' ∧
    task_state t' = completed ∧
    status t' = Some "unseen".
Proof.
  destruct (C7_set_completed sample_clock (clean_session three_waiting) 2
              (queued_in "waiting") true)
    as (s' & t' & H1 & H2 & _ & H3 & H4 & _).
  - vm_compute. reflexivity.
  - exists s', t'. repeat split; try assumption. apply H4. by left.
Defined.

Lemma C8_witness :
  ∃ r,
    peek_queued (Some "waiting") false (clean_session three_waiting)
      = (Ok (PeekOne r), clean_session three_waiting) ∧
    r = Some (1, queued_in "waiting").
Proof.
  destruct (C8_peek_queued (clean_session three_waiting) (Some "waiting"))
    as (r & H1 & _).
  exists r. split; [assumption|].
  vm_compute in H1. by injection H1 as <-.
Defined.

Lemma C9_witness :
  ∃ s',
    set_archived 1 (clean_session three_waiting) = (Ok tt, s') ∧
    (∃ r, peek_queued (Some "waiting") false s' = (Ok (PeekOne r), s') ∧
          ∀ p, r = Some p → p.1 ≠ 1).
Proof.
  destruct (C9_set_archived (clean_session three_waiting) 1
              (queued_in "waiting"))
    as (s' & H1 & _ & _ & H2).
  - vm_compute. reflexivity.
  - exists s'. split; [assumption|].
    destruct (H2 (Some "waiting")) as (r & q & Hr & _ & Hp & _).
    by exists r.
Defined.

Lemma C10_witness :
  peek_queued_default (clean_session two_in_other_stages) =
    (Ok (PeekOne None), clean_session two_in_other_stages).
Proof.
  destruct C10_default_stage_filter_is_waiting
    as (_ & _ & (_ & _ & H & _) & _).
  exact H.
Defined.

End LifecycleClaims.

(** * The other operations on transactions *)

Module TransitionFacts.
Import Lifecycle Queue Readings LifecycleFacts Transitions.

(** Every id-based mutator starts with the lookup inside its [try]. *)
Lemma lookup_missing {A} (id_ : Z) (k : Transaction → M store A) s :
  transactions (working s) !! id_ = None →
  try_except (t <- _get_transaction_or_raise_exception id_ ;; k t)
             (λ e, rollback ;;; raise e) s =
    (Raise not_found,
     Session (committed s) (committed s) (trace s ++ [EvRollback]) (ticks s)).
Proof.
  intros H. unfold _get_transaction_or_raise_exception. run. by rewrite H.
Qed.

(** The operations that only assign attributes. *)
Lemma assign_and_commit (f : Transaction → Transaction) id_ s t :
  transactions (working s) !! id_ = Some t →
  try_except (t <- _get_transaction_or_raise_exception id_ ;;
              update_transaction id_ (f t) ;;; commit)
             (λ e, rollback ;;; raise e) s =
    (Ok tt,
     Session (Store (<[id_ := f t]> (transactions (working s)))
                    (users (working s)) (user_transactions (working s)))
             (Store (<[id_ := f t]> (transactions (working s)))
                    (users (working s)) (user_transactions (working s)))
             (trace s ++ [EvCommit]) (ticks s)).
Proof.
  intros H. unfold _get_transaction_or_raise_exception, update_transaction.
  run. by rewrite H.
Qed.

Lemma next_transaction_id_above (m : gmap Z Transaction) i :
  is_Some (m !! i) → i < next_transaction_id m.
Proof.
  intros [t Ht]. unfold next_transaction_id.
  apply elem_of_map_to_list in Ht.
  assert (i ∈ (map_to_list m).*1) as Hin.
  { apply list_elem_of_fmap. by exists (i, t). }
  revert Hin. generalize ((map_to_list m).*1). intros l.
  induction l as [|x l IH]; [by intros ?%elem_of_nil|].
  rewrite elem_of_cons. simpl. intros [->|Hin]; [lia|].
  specialize (IH Hin). lia.
Qed.

Lemma next_transaction_id_fresh (m : gmap Z Transaction) :
  m !! next_transaction_id m = None.
Proof.
  destruct (m !! next_transaction_id m) eqn:E; [|done].
  pose proof (next_transaction_id_above m _ (mk_is_Some _ _ E)). lia.
Qed.

Lemma not_queued_not_peeked id_ (s : session store) t :
  transactions (working s) !! id_ = Some t →
  task_state t ≠ queued →
  not_peeked id_ s.
Proof.
  intros Ht Hst f. eexists _, _. unfold peek_queued. run.
  split; [reflexivity|]. split; [reflexivity|].
  assert (∀ p, p ∈ queued_query f (working s) → p.1 ≠ id_) as Hq.
  { intros p Hp Heq.
    apply elem_of_queued_query in Hp as (Hrow & Hqueued & _).
    rewrite Heq, Ht in Hrow. injection Hrow as Hrow. by rewrite <- Hrow in Hqueued. }
  split; [|exact Hq]. intros p Hp. by apply Hq, head_Some_elem_of.
Qed.

(** Eligibility looks at three fields only. *)
Lemma eligible_after_update f (w : store) id_ t t' i :
  transactions w !! id_ = Some t →
  task_state t' = task_state t →
  archived t' = archived t →
  processing_state t' = processing_state t →
  i ∈ (queued_query f w).*1 ↔
  i ∈ (queued_query f (Store (<[id_ := t']> (transactions w)) (users w)
                             (user_transactions w))).*1.
Proof.
  intros Ht H1 H2 H3. rewrite !list_elem_of_fmap.
  split; intros ([j tj] & -> & Hin); apply elem_of_queued_query in Hin;
    destruct Hin as (Hrow & Hq & Ha & Hf); cbn [fst snd transactions] in *.
  - destruct (decide (j = id_)) as [->|Hne].
    + exists (id_, t'). split; [done|]. apply elem_of_queued_query.
      rewrite Ht in Hrow. injection Hrow as <-.
      unfold eligible. cbn [fst snd transactions].
      rewrite lookup_insert_eq, H1, H2, H3. done.
    + exists (j, tj). split; [done|]. apply elem_of_queued_query.
      unfold eligible. cbn [fst snd transactions].
      by rewrite lookup_insert_ne.
  - destruct (decide (j = id_)) as [->|Hne].
    + exists (id_, t). split; [done|]. apply elem_of_queued_query.
      rewrite lookup_insert_eq in Hrow. injection Hrow as <-.
      unfold eligible. cbn [fst snd].
      rewrite <- H1, <- H2, <- H3. done.
    + exists (j, tj). split; [done|]. apply elem_of_queued_query.
      rewrite lookup_insert_ne in Hrow by done. done.
Qed.

End TransitionFacts.

Module TransitionProperties.
Import Lifecycle Queue Readings LifecycleFacts Transitions TransitionFacts.

Section Properties.
Variable clock : nat → Z.

(** X1: every operation that changes a transaction by id, called with an
    id that has no row, raises the not-found error after a rollback: the
    durable store is as before, whatever was pending in the session is
    discarded, and the clock is not read. *)
Theorem unknown_id_raises_and_rolls_back (s : session store) (id_ : Z) :
  transactions (working s) !! id_ = None →
  let failed_ : result unit * session store :=
    (Raise not_found,
     Session (committed s) (committed s) (trace s ++ [EvRollback]) (ticks s)) in
  (∀ st pl pr, set_processing clock id_ st pl pr s = failed_) ∧
  (∀ cause, set_failed clock id_ cause s = failed_) ∧
  (∀ clear_error, set_completed clock id_ clear_error s = failed_) ∧
  (∀ pl st, set_queued id_ pl st s = failed_) ∧
  (∀ st, set_status id_ st s = failed_) ∧
  (∀ cause, set_skipped id_ cause s = failed_) ∧
  (∀ cause, set_cancelled id_ cause s = failed_) ∧
  set_archived id_ s = failed_ ∧
  (∀ pl, set_last_message id_ pl s = failed_) ∧
  set_patient_consent id_ s = failed_ ∧
  unset_patient_consent id_ s = failed_ ∧
  (∀ q, set_qa_score id_ q s = failed_) ∧
  (∀ b, set_billable id_ b s = failed_) ∧
  (∀ p, set_priority id_ p s = failed_).
Proof.
  intros H failed_. subst failed_.
  repeat split; intros; by apply lookup_missing.
Qed.

(** X2: [get_transaction] commits whatever its outcome: it returns the row
    of the id, or raises the not-found error when there is none, and in
    both cases the pending changes of the session have become durable. *)
Theorem get_transaction_commits (s : session store) (id_ : Z) :
  get_transaction id_ s =
    (match transactions (working s) !! id_ with
     | Some t => Ok t
     | None => Raise not_found
     end,
     Session (working s) (working s) (trace s ++ [EvCommit]) (ticks s)).
Proof.
  unfold get_transaction, try_finally, _get_transaction_or_raise_exception.
  run. by destruct (transactions (working s) !! id_).
Qed.

(** X3: on an existing id, [set_failed] commits the row with [task_state]
    failed and [error] the cause given; [start_date] and [end_date] are
    kept when set and take a clock reading each otherwise; every other
    field, and every other row, is as before. *)
Theorem set_failed_records_cause
    (s : session store) (id_ : Z) (t : Transaction) (cause : option string) :
  transactions (working s) !! id_ = Some t →
  ∃ s',
    set_failed clock id_ cause s = (Ok tt, s') ∧
    working s' = committed s' ∧
    committed s' =
      Store (<[id_ := {| task_state := failed;
                         processing_state := processing_state t;
                         task_progress := task_progress t;
                         task_skipped := task_skipped t;
                         task_cancelled := task_cancelled t;
                         archived := archived t;
                         status := status t;
                         error := cause;
                         last_message := last_message t;
                         creation_date := creation_date t;
                         start_date :=
                           Some (default (clock (ticks s)) (start_date t));
                         end_date :=
                           Some (default
                                   (clock (if is_set (start_date t)
                                           then ticks s else S (ticks s)))
                                   (end_date t));
                         product_id := product_id t;
                         analysis_type := analysis_type t;
                         qa_score := qa_score t;
                         billable := billable t;
                         priority := priority t;
                         patient_consent := patient_consent t |}]>
               (transactions (working s)))
            (users (working s)) (user_transactions (working s)).
Proof.
  intros Ht.
  unfold set_failed, _get_transaction_or_raise_exception,
    update_transaction, utcnow.
  run. rewrite Ht. run.
  destruct (start_date t) as [d1|] eqn:E1; run;
    destruct (end_date t) as [d2|] eqn:E2; run;
    (eexists; split; [reflexivity|]; split; [reflexivity|];
     cbn [committed]; unfold assign_error, assign_end_date,
       assign_start_date, assign_task_state; cbn; by rewrite ?E1, ?E2).
Qed.

(** X4: on an existing id, [set_queued] commits the row as queued in the
    stage given; the payload is replaced only by a non-empty one ([None]
    and [''] keep the old payload); nothing else changes; and unless the
    row is archived, a peek filtered on that stage now finds a row whose
    id is at most this one. *)
Theorem set_queued_requeues
    (s : session store) (id_ : Z) (t : Transaction)
    (payload : option string) (stage : string) :
  transactions (working s) !! id_ = Some t →
  ∃ s',
    set_queued id_ payload stage s = (Ok tt, s') ∧
    working s' = committed s' ∧
    committed s' =
      Store (<[id_ := {| task_state := queued;
                         processing_state := stage;
                         task_progress := task_progress t;
                         task_skipped := task_skipped t;
                         task_cancelled := task_cancelled t;
                         archived := archived t;
                         status := status t;
                         error := error t;
                         last_message :=
                           if truthy_str payload then payload
                           else last_message t;
                         creation_date := creation_date t;
                         start_date := start_date t;
                         end_date := end_date t;
                         product_id := product_id t;
                         analysis_type := analysis_type t;
                         qa_score := qa_score t;
                         billable := billable t;
                         priority := priority t;
                         patient_consent := patient_consent t |}]>
               (transactions (working s)))
            (users (working s)) (user_transactions (working s)) ∧
    (archived t = 0 →
     ∃ p, peek_queued (Some stage) false s' = (Ok (PeekOne (Some p)), s') ∧
          p.1 ≤ id_).
Proof.
  intros Ht.
  pose proof (assign_and_commit
             (λ t, let t1 := assign_processing_state stage
                               (assign_task_state queued t) in
                   if truthy_str payload
                   then assign_last_message payload t1 else t1) id_ s t Ht)
    as Hrun.
  eexists. split; [exact Hrun|]. split; [reflexivity|].
  cbn [committed]. split.
  { by destruct (truthy_str payload). }
  intros Harch. unfold peek_queued. run.
  match goal with |- context [queued_query ?f ?w] =>
    assert ((id_, (let t1 := assign_processing_state stage
                                (assign_task_state queued t) in
                   if truthy_str payload
                   then assign_last_message payload t1 else t1))
            ∈ queued_query f w) as Hin;
    [|destruct (head (queued_query f w)) as [p|] eqn:E]
  end.
  - apply elem_of_queued_query. unfold eligible. cbn [fst snd transactions].
    rewrite lookup_insert_eq. split; [reflexivity|].
    by destruct (truthy_str payload).
  - exists p. split; [done|].
    exact (head_sorted_least _ _ _ E _ Hin).
  - exfalso. apply head_None in E. rewrite E in Hin.
    by apply elem_of_nil in Hin.
Qed.

(** X5: a transaction that is set to processing, failed or completed is no
    longer returned by any peek. *)
Theorem leaving_the_queue (s : session store) (id_ : Z) (t : Transaction) :
  transactions (working s) !! id_ = Some t →
  (∀ st pl pr, ∃ s',
     set_processing clock id_ st pl pr s = (Ok tt, s') ∧ not_peeked id_ s') ∧
  (∀ cause, ∃ s',
     set_failed clock id_ cause s = (Ok tt, s') ∧ not_peeked id_ s') ∧
  (∀ clear_error, ∃ s',
     set_completed clock id_ clear_error s = (Ok tt, s') ∧ not_peeked id_ s').
Proof.
  intros Ht. repeat split; intros.
  - unfold set_processing, _get_transaction_or_raise_exception,
      update_transaction, utcnow.
    run. rewrite Ht. run.
    destruct (start_date t); run;
      (eexists; split; [reflexivity|];
       eapply not_queued_not_peeked;
       [cbn [working transactions]; apply lookup_insert_eq | done]).
  - unfold set_failed, _get_transaction_or_raise_exception,
      update_transaction, utcnow.
    run. rewrite Ht. run.
    destruct (start_date t); run; destruct (end_date t); run;
      (eexists; split; [reflexivity|];
       eapply not_queued_not_peeked;
       [cbn [working transactions]; apply lookup_insert_eq | done]).
  - unfold set_completed, _get_transaction_or_raise_exception,
      update_transaction, utcnow.
    run. rewrite Ht. run.
    destruct (status t) as [[|? ?]|]; run;
      destruct (start_date t); run; destruct (end_date t); run;
      destruct clear_error; run;
      (eexists; split; [reflexivity|];
       eapply not_queued_not_peeked;
       [cbn [working transactions]; apply lookup_insert_eq | done]).
Qed.

(** X6: on an existing id, [set_skipped] and [set_cancelled] set their flag
    and overwrite [error] only with a non-empty cause; [task_state] and the
    other fields are as before, so the transaction stays in the queue if it
    was there: the ids a peek can return are the same before and after. *)
Theorem skipping_and_cancelling_keep_the_queue
    (s : session store) (id_ : Z) (t : Transaction) (cause : option string) :
  transactions (working s) !! id_ = Some t →
  let noted := if truthy_str cause then assign_error cause t else t in
  ∃ s1 s2,
    set_skipped id_ cause s = (Ok tt, s1) ∧
    set_cancelled id_ cause s = (Ok tt, s2) ∧
    working s1 = committed s1 ∧
    working s2 = committed s2 ∧
    transactions (committed s1) =
      <[id_ := {| task_state := task_state t;
                  processing_state := processing_state t;
                  task_progress := task_progress t;
                  task_skipped := 1;
                  task_cancelled := task_cancelled t;
                  archived := archived t;
                  status := status t;
                  error := error noted;
                  last_message := last_message t;
                  creation_date := creation_date t;
                  start_date := start_date t;
                  end_date := end_date t;
                  product_id := product_id t;
                  analysis_type := analysis_type t;
                  qa_score := qa_score t;
                  billable := billable t;
                  priority := priority t;
                  patient_consent := patient_consent t |}]>
        (transactions (working s)) ∧
    transactions (committed s2) =
      <[id_ := {| task_state := task_state t;
                  processing_state := processing_state t;
                  task_progress := task_progress t;
                  task_skipped := task_skipped t;
                  task_cancelled := 1;
                  archived := archived t;
                  status := status t;
                  error := error noted;
                  last_message := last_message t;
                  creation_date := creation_date t;
                  start_date := start_date t;
                  end_date := end_date t;
                  product_id := product_id t;
                  analysis_type := analysis_type t;
                  qa_score := qa_score t;
                  billable := billable t;
                  priority := priority t;
                  patient_consent := patient_consent t |}]>
        (transactions (working s)) ∧
    (∀ filter_ i,
       (i ∈ (queued_query filter_ (working s)).*1 ↔
        i ∈ (queued_query filter_ (working s1)).*1) ∧
       (i ∈ (queued_query filter_ (working s)).*1 ↔
        i ∈ (queued_query filter_ (working s2)).*1)).
Proof.
  intros Ht noted.
  pose proof (assign_and_commit
    (λ t, let t1 := assign_task_skipped 1 t in
          if truthy_str cause then assign_error cause t1 else t1) id_ s t Ht)
    as H1.
  pose proof (assign_and_commit
    (λ t, let t1 := assign_task_cancelled 1 t in
          if truthy_str cause then assign_error cause t1 else t1) id_ s t Ht)
    as H2.
  eexists _, _. split; [exact H1|]. split; [exact H2|].
  split; [reflexivity|]. split; [reflexivity|].
  cbn [committed working transactions]. subst noted.
  split; [by destruct (truthy_str cause)|].
  split; [by destruct (truthy_str cause)|].
  intros f i. split.
  - apply (eligible_after_update f (working s) id_ t); try done;
      by destruct (truthy_str cause).
  - apply (eligible_after_update f (working s) id_ t); try done;
      by destruct (truthy_str cause).
Qed.

(** X7: the result of [peek_queued] with [peek_all] is the list of the
    eligible rows, each once, in ascending order of id, and the row
    returned without [peek_all] is its first element. *)
Theorem peek_all_is_the_ordered_queue
    (s : session store) (filter_ : option string) :
  ∃ q,
    peek_queued filter_ true s = (Ok (PeekAll q), s) ∧
    peek_queued filter_ false s = (Ok (PeekOne (head q)), s) ∧
    (∀ p, p ∈ q ↔ eligible filter_ (working s) p) ∧
    NoDup q.*1 ∧
    StronglySorted Z.lt q.*1.
Proof.
  exists (queued_query filter_ (working s)).
  split; [reflexivity|]. split; [reflexivity|].
  split; [intros p; apply elem_of_queued_query|].
  assert (NoDup (queued_query filter_ (working s)).*1) as Hnd.
  { unfold queued_query, order_by_transaction_id_asc.
    rewrite merge_sort_Permutation.
    assert (∀ l, NoDup l.*1 →
                 ∀ P `{∀ x : Z * Transaction, Decision (P x)},
                 NoDup (filter P l).*1) as Hf.
    { intros l Hl P ?. induction l as [|x l IH]; [done|].
      rewrite fmap_cons in Hl. apply NoDup_cons in Hl as [Hx Hl].
      rewrite filter_cons. case_decide; [|by apply IH].
      rewrite fmap_cons. apply NoDup_cons. split; [|by apply IH].
      intros Hin. apply Hx. apply list_elem_of_fmap in Hin as (y & -> & Hy).
      apply list_elem_of_filter in Hy as [_ Hy].
      apply list_elem_of_fmap. by exists y. }
    pose proof (NoDup_fst_map_to_list (transactions (working s))) as H0.
    destruct (truthy_str filter_); repeat apply Hf; done. }
  split; [exact Hnd|].
  assert (StronglySorted id_le (queued_query filter_ (working s))) as Hs.
  { unfold queued_query, order_by_transaction_id_asc.
    apply StronglySorted_merge_sort; apply _. }
  revert Hnd Hs. generalize (queued_query filter_ (working s)).
  induction l as [|x l IH]; intros Hnd Hs; [constructor|].
  rewrite fmap_cons in *. apply NoDup_cons in Hnd as [Hx Hnd].
  inversion Hs as [|? ? Hs' Hall]; subst.
  constructor; [by apply IH|].
  rewrite Forall_fmap. rewrite Forall_forall in Hall |- *.
  intros y Hy. specialize (Hall y Hy). unfold id_le in Hall. cbn.
  assert (x.1 ≠ y.1); [|lia].
  intros Heq. apply Hx, list_elem_of_fmap. by exists y.
Qed.

End Properties.
End TransitionProperties.

Module CreationProperties.
Import Lifecycle Queue Readings LifecycleFacts Transitions TransitionFacts.

Section Properties.
Variable clock : nat → Z.
Variable json_set_t_id : string → Z → option string.
Variable set_index_sequences : Transaction → result Transaction.

(** X8: [create_transaction] on a session where the user given (if any)
    exists and the sequence index succeeds returns the id the store
    assigns, which no row had and which is above every id in the table;
    the committed row is what the index returns for the transaction with
    [task_state] failed if the argument was ['failed'] and queued
    otherwise, the stage given, [creation_date] kept if set and read from
    the clock if not, [product_id], [analysis_type] and [qa_score]
    replaced by non-empty arguments only, and the payload carrying the
    new id when it can be parsed; one association row is added when a user
    is given; the other rows are untouched. *)
Theorem create_transaction_inserts
    (s : session store) (t : Transaction) (user_id product : option Z)
    (analysis qa : option string) (stage task_state_ : string)
    (t_final : Transaction) :
  let new_id := next_transaction_id (transactions (working s)) in
  let t0 :=
    {| task_state := if String.eqb task_state_ "failed" then failed else queued;
       processing_state := stage;
       task_progress := task_progress t;
       task_skipped := task_skipped t;
       task_cancelled := task_cancelled t;
       archived := archived t;
       status := status t;
       error := error t;
       last_message :=
         if truthy_str (last_message t)
         then match json_set_t_id (default "" (last_message t)) new_id with
              | Some lm => Some lm
              | None => last_message t
              end
         else last_message t;
       creation_date := Some (default (clock (ticks s)) (creation_date t));
       start_date := start_date t;
       end_date := end_date t;
       product_id := if truthy_int product then product else product_id t;
       analysis_type :=
         if truthy_str analysis then analysis else analysis_type t;
       qa_score := if truthy_str qa then qa else qa_score t;
       billable := billable t;
       priority := priority t;
       patient_consent := patient_consent t |} in
  (truthy_int user_id = true → default 0 user_id ∈ users (working s)) →
  set_index_sequences t0 = Ok t_final →
  ∃ s',
    create_transaction clock json_set_t_id set_index_sequences
      t user_id product analysis qa stage task_state_ s = (Ok new_id, s') ∧
    working s' = committed s' ∧
    committed s' =
      Store (<[new_id := t_final]> (transactions (working s)))
            (users (working s))
            (user_transactions (working s) ++
               if truthy_int user_id then [(default 0 user_id, new_id)] else []) ∧
    transactions (working s) !! new_id = None ∧
    (∀ i, is_Some (transactions (working s) !! i) → i < new_id).
Proof.
  intros new_id t0 Huser Hidx.
  assert (0 < new_id) as Hpos.
  { unfold new_id, next_transaction_id.
    generalize ((map_to_list (transactions (working s))).*1).
    intros l. induction l; simpl; lia. }
  assert (transactions (working s) !! new_id = None) as Hfresh
    by apply next_transaction_id_fresh.
  assert (∀ i, is_Some (transactions (working s) !! i) → i < new_id) as Habove
    by apply next_transaction_id_above.
  subst new_id.
  unfold create_transaction, add_transaction, add_user_transaction,
    update_transaction, delete_transaction, utcnow.
  destruct t as [ts0 ps0 tp0 sk0 ca0 ar0 st0 er0 lm0 cd0 sd0 ed0 pi0 at0 qa0
                 bi0 pr0 pc0].
  cbn [last_message creation_date task_state processing_state task_progress
       task_skipped task_cancelled archived status error start_date end_date
       product_id analysis_type qa_score billable priority patient_consent]
    in *.
  subst t0. cbn [default from_option id] in Hidx.
  destruct (String.eqb task_state_ "failed"), cd0 as [d|]; run;
    destruct (truthy_int product), (truthy_str analysis), (truthy_str qa);
    run;
    destruct (truthy_int user_id) eqn:Eu; run;
    rewrite ?bool_decide_eq_true_2 by (by apply Huser); run;
    destruct (truthy_str lm0); run;
    try destruct (json_set_t_id _ _); run;
    cbn in Hidx; row_fields; rewrite Hidx; run;
    (eexists; split; [reflexivity|]; split; [reflexivity|];
     cbn [committed];
     rewrite insert_insert_eq, ?app_nil_r; done).
Qed.






(** X9: [create_transaction] for a user id that no user has raises the
    not-found error, whatever the store and the transaction.  By then the
    new row is committed, and it stays in the durable store; the handler
    removes it from the session only, where the removal is left pending;
    no association row is written. *)
Theorem create_transaction_unknown_user
    (s : session store) (t : Transaction) (user_id product : option Z)
    (analysis qa : option string) (stage task_state_ : string) :
  let new_id := next_transaction_id (transactions (working s)) in
  let t0 :=
    {| task_state := if String.eqb task_state_ "failed" then failed else queued;
       processing_state := stage;
       task_progress := task_progress t;
       task_skipped := task_skipped t;
       task_cancelled := task_cancelled t;
       archived := archived t;
       status := status t;
       error := error t;
       last_message := last_message t;
       creation_date := Some (default (clock (ticks s)) (creation_date t));
       start_date := start_date t;
       end_date := end_date t;
       product_id := if truthy_int product then product else product_id t;
       analysis_type :=
         if truthy_str analysis then analysis else analysis_type t;
       qa_score := if truthy_str qa then qa else qa_score t;
       billable := billable t;
       priority := priority t;
       patient_consent := patient_consent t |} in
  truthy_int user_id = true →
  default 0 user_id ∉ users (working s) →
  ∃ s',
    create_transaction clock json_set_t_id set_index_sequences
      t user_id product analysis qa stage task_state_ s =
      (Raise (TransactionDBException "The provided user doesn't exist"), s') ∧
    committed s' =
      Store (<[new_id := t0]> (transactions (working s)))
            (users (working s)) (user_transactions (working s)) ∧
    working s' =
      Store (transactions (working s))
            (users (working s)) (user_transactions (working s)).
Proof.
  intros new_id t0 Huser Hmissing.
  assert (0 < new_id) as Hpos.
  { unfold new_id, next_transaction_id.
    generalize ((map_to_list (transactions (working s))).*1).
    intros l. induction l; simpl; lia. }
  assert (transactions (working s) !! new_id = None) as Hfresh
    by apply next_transaction_id_fresh.
  assert (Z.eqb new_id 0 = false) as Hnz by lia.
  unfold create_transaction, add_transaction, add_user_transaction,
    update_transaction, delete_transaction, utcnow.
  fold new_id. rewrite Huser.
  destruct t as [ts0 ps0 tp0 sk0 ca0 ar0 st0 er0 lm0 cd0 sd0 ed0 pi0 at0 qa0
                 bi0 pr0 pc0].
  cbn [last_message creation_date task_state processing_state task_progress
       task_skipped task_cancelled archived status error start_date end_date
       product_id analysis_type qa_score billable priority patient_consent]
    in *.
  subst t0.
  destruct (String.eqb task_state_ "failed"), cd0 as [d|]; run;
    destruct (truthy_int product), (truthy_str analysis), (truthy_str qa);
    run;
    rewrite ?bool_decide_eq_false_2 by done; run;
    fold new_id; rewrite Hnz; run;
    (eexists; split; [reflexivity|]; split; [reflexivity|];
     cbn [working]; f_equal;
     by rewrite delete_insert_eq, delete_id).
Qed.

End Properties.
End CreationProperties.

Module SetterProperties.
Import Lifecycle Queue Readings LifecycleFacts Transitions TransitionFacts.

(** One assignment, committed, then read back. *)
Lemma assign_then_get (f : Transaction → Transaction) id_ s t :
  transactions (working s) !! id_ = Some t →
  (try_except (t <- _get_transaction_or_raise_exception id_ ;;
               update_transaction id_ (f t) ;;; commit)
              (λ e, rollback ;;; raise e) ;;;
   get_transaction id_) s =
    (Ok (f t),
     Session (Store (<[id_ := f t]> (transactions (working s)))
                    (users (working s)) (user_transactions (working s)))
             (Store (<[id_ := f t]> (transactions (working s)))
                    (users (working s)) (user_transactions (working s)))
             (trace s ++ [EvCommit; EvCommit]) (ticks s)).
Proof.
  intros Ht. unfold bind at 1. rewrite (assign_and_commit f id_ s t Ht).
  unfold get_transaction, try_finally, _get_transaction_or_raise_exception.
  run. rewrite lookup_insert_eq. run. by rewrite <- app_assoc.
Qed.

(** X10: the operations that overwrite one field ([set_status],
    [set_qa_score], [set_billable], [set_priority], [set_last_message],
    [set_patient_consent], [unset_patient_consent]) commit the row with
    that field replaced and nothing else changed, and [get_transaction]
    then returns that row; the other rows and tables are untouched. *)
Theorem one_field_setters_read_back
    (s : session store) (id_ : Z) (t : Transaction) :
  transactions (working s) !! id_ = Some t →
  let after (f : Transaction → Transaction) : result Transaction * session store :=
    (Ok (f t),
     Session (Store (<[id_ := f t]> (transactions (working s)))
                    (users (working s)) (user_transactions (working s)))
             (Store (<[id_ := f t]> (transactions (working s)))
                    (users (working s)) (user_transactions (working s)))
             (trace s ++ [EvCommit; EvCommit]) (ticks s)) in
  (∀ v, (set_status id_ v ;;; get_transaction id_) s =
        after (λ t, {| task_state := task_state t;
                       processing_state := processing_state t;
                       task_progress := task_progress t;
                       task_skipped := task_skipped t;
                       task_cancelled := task_cancelled t;
                       archived := archived t;
                       status := v;
                       error := error t;
                       last_message := last_message t;
                       creation_date := creation_date t;
                       start_date := start_date t;
                       end_date := end_date t;
                       product_id := product_id t;
                       analysis_type := analysis_type t;
                       qa_score := qa_score t;
                       billable := billable t;
                       priority := priority t;
                       patient_consent := patient_consent t |})) ∧
  (∀ v, (set_qa_score id_ v ;;; get_transaction id_) s =
        after (λ t, {| task_state := task_state t;
                       processing_state := processing_state t;
                       task_progress := task_progress t;
                       task_skipped := task_skipped t;
                       task_cancelled := task_cancelled t;
                       archived := archived t;
                       status := status t;
                       error := error t;
                       last_message := last_message t;
                       creation_date := creation_date t;
                       start_date := start_date t;
                       end_date := end_date t;
                       product_id := product_id t;
                       analysis_type := analysis_type t;
                       qa_score := v;
                       billable := billable t;
                       priority := priority t;
                       patient_consent := patient_consent t |})) ∧
  (∀ v, (set_billable id_ v ;;; get_transaction id_) s =
        after (λ t, {| task_state := task_state t;
                       processing_state := processing_state t;
                       task_progress := task_progress t;
                       task_skipped := task_skipped t;
                       task_cancelled := task_cancelled t;
                       archived := archived t;
                       status := status t;
                       error := error t;
                       last_message := last_message t;
                       creation_date := creation_date t;
                       start_date := start_date t;
                       end_date := end_date t;
                       product_id := product_id t;
                       analysis_type := analysis_type t;
                       qa_score := qa_score t;
                       billable := v;
                       priority := priority t;
                       patient_consent := patient_consent t |})) ∧
  (∀ v, (set_priority id_ v ;;; get_transaction id_) s =
        after (λ t, {| task_state := task_state t;
                       processing_state := processing_state t;
                       task_progress := task_progress t;
                       task_skipped := task_skipped t;
                       task_cancelled := task_cancelled t;
                       archived := archived t;
                       status := status t;
                       error := error t;
                       last_message := last_message t;
                       creation_date := creation_date t;
                       start_date := start_date t;
                       end_date := end_date t;
                       product_id := product_id t;
                       analysis_type := analysis_type t;
                       qa_score := qa_score t;
                       billable := billable t;
                       priority := v;
                       patient_consent := patient_consent t |})) ∧
  (∀ v, (set_last_message id_ v ;;; get_transaction id_) s =
        after (λ t, {| task_state := task_state t;
                       processing_state := processing_state t;
                       task_progress := task_progress t;
                       task_skipped := task_skipped t;
                       task_cancelled := task_cancelled t;
                       archived := archived t;
                       status := status t;
                       error := error t;
                       last_message := v;
                       creation_date := creation_date t;
                       start_date := start_date t;
                       end_date := end_date t;
                       product_id := product_id t;
                       analysis_type := analysis_type t;
                       qa_score := qa_score t;
                       billable := billable t;
                       priority := priority t;
                       patient_consent := patient_consent t |})) ∧
  (∀ flag : bool,
     ((if flag then set_patient_consent id_ else unset_patient_consent id_) ;;;
      get_transaction id_) s =
        after (λ t, {| task_state := task_state t;
                       processing_state := processing_state t;
                       task_progress := task_progress t;
                       task_skipped := task_skipped t;
                       task_cancelled := task_cancelled t;
                       archived := archived t;
                       status := status t;
                       error := error t;
                       last_message := last_message t;
                       creation_date := creation_date t;
                       start_date := start_date t;
                       end_date := end_date t;
                       product_id := product_id t;
                       analysis_type := analysis_type t;
                       qa_score := qa_score t;
                       billable := billable t;
                       priority := priority t;
                       patient_consent := if flag then 1 else 0 |})).
Proof.
  intros Ht after. subst after. cbv beta.
  repeat split; intros.
  - exact (assign_then_get (assign_status v) id_ s t Ht).
  - exact (assign_then_get (assign_qa_score v) id_ s t Ht).
  - exact (assign_then_get (assign_billable v) id_ s t Ht).
  - exact (assign_then_get (assign_priority v) id_ s t Ht).
  - exact (assign_then_get (assign_last_message v) id_ s t Ht).
  - destruct flag.
    + exact (assign_then_get (assign_patient_consent 1) id_ s t Ht).
    + exact (assign_then_get (assign_patient_consent 0) id_ s t Ht).
Qed.

End SetterProperties.

(** * The whole migration *)

Module PassFacts.
Import Migrations MigrationFacts Readings Passes.

Lemma run_scripts_ok version : ∀ (fs : list script) (g : nat → nat) s db',
  apply_scripts fs (tables (working s)) = Some db' →
  for_each (imap (λ i f, (g i, f)) fs)
           (λ p, run_script version p.1 p.2) s =
    (Ok tt,
     Session (committed s) (Store db' (schema_version (working s)))
             (trace s ++ imap (λ i _, EvScript version (g i)) fs) (ticks s)).
Proof.
  induction fs as [|f fs IH]; intros g s db' H; simpl in H.
  - injection H as <-. cbn. unfold ret.
    by rewrite store_eta, app_nil_r, session_eta.
  - destruct (f (tables (working s))) as [db1|] eqn:E; [|done].
    rewrite !imap_cons, for_each_cons. unfold run_script at 1. run.
    rewrite E. run.
    match goal with |- context [for_each _ _ ?s1] =>
      pose proof (IH (g ∘ S) s1 db' H) as IH' end.
    unfold compose in *. rewrite IH'. cbn.
    by rewrite <- app_assoc.
Qed.

Lemma run_scripts_fail version : ∀ (fs : list script) (g : nat → nat) s,
  apply_scripts fs (tables (working s)) = None →
  ∃ i w tr,
    for_each (imap (λ i f, (g i, f)) fs)
             (λ p, run_script version p.1 p.2) s =
      (Raise (ScriptError version (g i)),
       Session (committed s) w (trace s ++ tr) (ticks s)) ∧
    (i < length fs)%nat.
Proof.
  induction fs as [|f fs IH]; intros g s H; simpl in H; [done|].
  rewrite !imap_cons, for_each_cons. unfold run_script at 1. run.
  destruct (f (tables (working s))) as [db1|] eqn:E; run.
  - match goal with |- context [for_each _ _ ?s1] =>
      destruct (IH (g ∘ S) s1 H) as (i & w & tr & IH' & Hi) end.
    unfold compose in *. rewrite IH'.
    exists (S i), w, (EvScript version (g 0%nat) :: tr). cbn.
    split; [by rewrite <- app_assoc | lia].
  - exists 0%nat, (working s), [EvScript version (g 0%nat)].
    split; [done | simpl; lia].
Qed.

Lemma scripts_of_version_ok scripts v s db' :
  apply_scripts (scripts_at scripts v) (tables (working s)) = Some db' →
  scripts_of_version scripts v s =
    (Ok tt,
     Session (Store db' (schema_version (working s)))
             (Store db' (schema_version (working s)))
             (trace s ++ version_trace scripts v) (ticks s)).
Proof.
  intros H. unfold scripts_of_version, try_except. unfold bind at 1.
  pose proof (run_scripts_ok v (scripts_at scripts v) id s db' H) as Hrun.
  match type of Hrun with _ = ?r =>
    assert (for_each (imap pair (default [] (scripts !! v)))
              (λ p, run_script v p.1 p.2) s = r) as -> by exact Hrun end.
  run. unfold version_trace. by rewrite <- app_assoc.
Qed.

Lemma scripts_of_version_fail scripts v s :
  apply_scripts (scripts_at scripts v) (tables (working s)) = None →
  ∃ i tr,
    scripts_of_version scripts v s =
      (Raise (ScriptError v i),
       Session (committed s) (committed s)
               (trace s ++ tr ++ [EvRollback; EvClose; EvLogException])
               (ticks s)) ∧
    (i < length (scripts_at scripts v))%nat.
Proof.
  intros H. unfold scripts_of_version, try_except. unfold bind at 1.
  destruct (run_scripts_fail v (scripts_at scripts v) id s H)
    as (i & w & tr & Hrun & Hi).
  match type of Hrun with _ = ?r =>
    assert (for_each (imap pair (default [] (scripts !! v)))
              (λ p, run_script v p.1 p.2) s = r) as -> by exact Hrun end.
  exists i, tr. run. split; [|done]. by rewrite <- !app_assoc.
Qed.

Lemma pass_loop_ok scripts vs : ∀ s db',
  working s = committed s →
  apply_pass scripts vs (tables (working s)) = Some db' →
  for_each vs (scripts_of_version scripts) s =
    (Ok tt,
     Session (Store db' (schema_version (working s)))
             (Store db' (schema_version (working s)))
             (trace s ++ concat (version_trace scripts <$> vs)) (ticks s)).
Proof.
  induction vs as [|v vs IH]; intros s db' Hclean H; simpl in H.
  - injection H as <-. cbn. unfold ret.
    rewrite store_eta, app_nil_r. destruct s; simpl in *. by subst.
  - destruct (apply_scripts _ _) as [db1|] eqn:E; [|done].
    rewrite for_each_cons, (scripts_of_version_ok _ _ _ _ E).
    rewrite (IH _ db') by done. cbn. by rewrite <- app_assoc.
Qed.

Lemma migrate_scripts_ok scripts a b s db' :
  working s = committed s →
  apply_pass scripts (range (a + 1) (b + 1)) (tables (working s)) = Some db' →
  migrate_scripts scripts a b s =
    (Ok tt,
     Session (Store db' (schema_version (working s)))
             (Store db' (schema_version (working s)))
             (trace s ++ pass_trace scripts (range (a + 1) (b + 1)))
             (ticks s)).
Proof.
  intros Hclean H. unfold migrate_scripts. unfold bind at 1.
  rewrite (pass_loop_ok _ _ _ _ Hclean H). run.
  unfold pass_trace. by rewrite <- app_assoc.
Qed.

Lemma backfill_loop_ok scripts a b : ∀ (outer : list Z) s db',
  working s = committed s →
  apply_passes scripts (range (a + 1) (b + 1)) (length outer)
               (tables (working s)) = Some db' →
  for_each outer
    (λ version, emit (EvWarnStarted version) ;;;
                migrate_scripts scripts a b ;;; emit EvWarnFinished) s =
    (Ok tt,
     Session (Store db' (schema_version (working s)))
             (Store db' (schema_version (working s)))
             (trace s ++
                concat ((λ v, EvWarnStarted v ::
                              pass_trace scripts (range (a + 1) (b + 1)) ++
                              [EvWarnFinished]) <$> outer))
             (ticks s)).
Proof.
  induction outer as [|v outer IH]; intros s db' Hclean H; simpl in H.
  - injection H as <-. cbn. unfold ret.
    rewrite store_eta, app_nil_r. destruct s; simpl in *. by subst.
  - destruct (apply_pass _ _ _) as [db1|] eqn:E; [|done].
    rewrite for_each_cons. unfold bind at 1. unfold emit at 1.
    unfold bind at 1.
    rewrite (migrate_scripts_ok scripts a b _ db1) by done.
    unfold emit at 1. cbn [committed working trace ticks schema_version].
    rewrite (IH _ db') by done. cbn.
    by rewrite <- !app_assoc.
Qed.

Lemma script_runs_app v i tr1 tr2 :
  script_runs v i (tr1 ++ tr2) = (script_runs v i tr1 + script_runs v i tr2)%nat.
Proof.
  induction tr1 as [|ev tr1 IH]; [done|].
  destruct ev; simpl; rewrite ?IH; lia.
Qed.

Lemma script_runs_indices v i w : ∀ (fs : list script) (k : nat),
  script_runs v i (imap (λ j _, EvScript w (k + j)%nat) fs) =
    if bool_decide (v = w ∧ (k ≤ i < k + length fs)%nat)
    then 1%nat else 0%nat.
Proof.
  induction fs as [|f fs IH]; intros k.
  - simpl. rewrite bool_decide_eq_false_2; [done|]. lia.
  - rewrite imap_cons. cbn [script_runs].
    rewrite (imap_ext _ (λ j _, EvScript w (S k + j)%nat))
      by (intros; simpl; f_equal; lia).
    rewrite IH. replace (k + 0)%nat with k by lia. cbn [length].
    repeat case_bool_decide; simpl; lia.
Qed.

Lemma script_runs_version scripts v i w :
  script_runs v i (version_trace scripts w) =
    if bool_decide (v = w ∧ (i < length (scripts_at scripts w))%nat)
    then 1%nat else 0%nat.
Proof.
  unfold version_trace. rewrite script_runs_app. simpl.
  rewrite (imap_ext _ (λ j _, EvScript w (0 + j)%nat)) by done.
  rewrite script_runs_indices.
  repeat case_bool_decide; simpl; lia.
Qed.

Lemma script_runs_versions scripts v i vs :
  NoDup vs →
  script_runs v i (concat (version_trace scripts <$> vs)) =
    if bool_decide (v ∈ vs ∧ (i < length (scripts_at scripts v))%nat)
    then 1%nat else 0%nat.
Proof.
  induction vs as [|w vs IH]; intros Hnd.
  - cbn [fmap list_fmap concat script_runs].
    case_bool_decide as H; [|done]. by destruct H as [?%elem_of_nil _].
  - apply NoDup_cons in Hnd as [Hw Hnd].
    cbn [fmap list_fmap concat]. rewrite script_runs_app, script_runs_version.
    rewrite (IH Hnd).
    repeat case_bool_decide; simpl; try lia; exfalso;
      rewrite ?elem_of_cons in *; intuition congruence.
Qed.

Lemma script_runs_backfill scripts v i vs : ∀ outer,
  NoDup vs →
  script_runs v i
    (concat ((λ o, EvWarnStarted o :: pass_trace scripts vs ++ [EvWarnFinished])
             <$> outer)) =
    if bool_decide (v ∈ vs ∧ (i < length (scripts_at scripts v))%nat)
    then length outer else 0%nat.
Proof.
  intros outer Hnd. induction outer as [|o outer IH].
  - simpl. by case_bool_decide.
  - cbn [fmap list_fmap concat length]. rewrite script_runs_app, IH.
    cbn [script_runs app]. unfold pass_trace.
    rewrite !script_runs_app, script_runs_versions by done. simpl.
    case_bool_decide; lia.
Qed.

Lemma script_runs_step v i w : script_runs v i (step_trace w) = 0%nat.
Proof.
  unfold step_trace. cbn [script_runs]. rewrite script_runs_app.
  cbn [script_runs].
  assert (∀ l, script_runs v i (EvExecute <$> l) = 0%nat) as ->; [|done].
  intros l. by induction l.
Qed.

Lemma script_runs_steps v i vs :
  script_runs v i (concat (step_trace <$> vs)) = 0%nat.
Proof.
  induction vs as [|w vs IH]; [done|].
  cbn [fmap list_fmap concat]. by rewrite script_runs_app, script_runs_step, IH.
Qed.

End PassFacts.

Module EngineProperties.
Import Migrations MigrationFacts Readings Passes PassFacts.

Lemma NoDup_range a b : NoDup (range a b).
Proof. unfold range. apply NoDup_seqZ. Qed.

Lemma pass_loop_fail scripts vs1 v vs2 s db_a :
  working s = committed s →
  apply_pass scripts vs1 (tables (working s)) = Some db_a →
  apply_scripts (scripts_at scripts v) db_a = None →
  ∃ i tr,
    for_each (vs1 ++ v :: vs2) (scripts_of_version scripts) s =
      (Raise (ScriptError v i),
       Session (Store db_a (schema_version (working s)))
               (Store db_a (schema_version (working s)))
               (trace s ++ tr ++ [EvRollback; EvClose; EvLogException])
               (ticks s)) ∧
    (i < length (scripts_at scripts v))%nat.
Proof.
  intros Hclean H1 Hv.
  rewrite for_each_app, (pass_loop_ok scripts vs1 s db_a Hclean H1),
    for_each_cons.
  match goal with |- context [scripts_of_version scripts v ?s1] =>
    destruct (scripts_of_version_fail scripts v s1 Hv) as (i & tr & -> & Hi)
  end.
  exists i, (concat (version_trace scripts <$> vs1) ++ tr).
  split; [|done]. cbn [committed working trace ticks schema_version].
  by rewrite <- !app_assoc.
Qed.

(** X11: a successful migration.  When the statements of every version of
    the range apply and the scripts succeed each time they are run,
    [migrate] returns normally with the target version and the resulting
    tables committed.  The versions are taken in ascending order, none
    skipped, one commit each; then, once per version of the range, the
    scripts of the whole range are run again: each declared script is
    called as many times as the range has versions. *)
Theorem migrate_succeeds
    (T : Z) (scripts : gmap Z (list script)) (s : session store)
    (db1 db2 : gmap string table) :
  let v0 := schema_version (committed s) in
  let vs := range (v0 + 1) (T + 1) in
  working s = committed s →
  apply_steps vs (tables (committed s)) = Some db1 →
  apply_passes scripts vs (length vs) db1 = Some db2 →
  ∃ s',
    migrate T scripts s = (Ok tt, s') ∧
    committed s' = Store db2 (Z.max v0 T) ∧
    working s' = committed s' ∧
    trace s' = trace s ++ concat (step_trace <$> vs)
                       ++ backfill_trace scripts vs ∧
    (∀ v i, script_runs v i
              (concat (step_trace <$> vs) ++ backfill_trace scripts vs) =
            if bool_decide (v ∈ vs ∧ (i < length (scripts_at scripts v))%nat)
            then length vs else 0%nat).
Proof.
  intros v0 vs Hclean Hsteps Hpasses.
  unfold migrate. unfold bind at 1. unfold read at 1. cbn beta iota.
  rewrite Hclean. fold v0. fold vs. unfold bind at 1.
  rewrite (ddl_loop_ok vs s db1 Hclean) by (by rewrite Hclean).
  rewrite (backfill_loop_ok scripts v0 T vs _ db2) by done.
  eexists. split; [reflexivity|]. cbn [committed working trace schema_version].
  split; [|split; [done|split]].
  - f_equal. subst vs. rewrite last_range, Hclean. fold v0.
    case_decide; simpl; lia.
  - unfold backfill_trace. by rewrite <- app_assoc.
  - intros v i. rewrite script_runs_app, script_runs_steps.
    unfold backfill_trace. rewrite script_runs_backfill by apply NoDup_range.
    done.
Qed.

(** X12: [migrate] on a store whose version is already the target, or
    above it, does nothing at all: no statement, no script, no commit. *)
Theorem migrate_at_target_is_idle
    (T : Z) (scripts : gmap Z (list script)) (s : session store) :
  T ≤ schema_version (working s) →
  migrate T scripts s = (Ok tt, s).
Proof.
  intros H. unfold migrate. unfold bind at 1. unfold read at 1.
  cbn beta iota. unfold range. rewrite !seqZ_nil by lia. reflexivity.
Qed.

(** X13: a failing script.  When the statements of the whole range have
    applied and, in the first run of the scripts, those of the versions
    below [v] succeed but one of version [v] fails, [migrate] raises that
    script's error.  The schema version committed is already the target;
    the scripts of the versions below [v] stay committed; everything the
    scripts of version [v] did, the ones before the failing one included,
    is rolled back. *)
Theorem migrate_script_failure
    (T : Z) (scripts : gmap Z (list script)) (s : session store)
    (v : Z) (db1 db_a : gmap string table) :
  let v0 := schema_version (committed s) in
  working s = committed s →
  v0 < v ≤ T →
  apply_steps (range (v0 + 1) (T + 1)) (tables (committed s)) = Some db1 →
  apply_pass scripts (range (v0 + 1) v) db1 = Some db_a →
  apply_scripts (scripts_at scripts v) db_a = None →
  ∃ i s',
    migrate T scripts s = (Raise (ScriptError v i), s') ∧
    (i < length (scripts_at scripts v))%nat ∧
    committed s' = Store db_a T ∧
    working s' = committed s'.
Proof.
  intros v0 Hclean Hv Hsteps Hpass Hfail.
  unfold migrate. unfold bind at 1. unfold read at 1. cbn beta iota.
  rewrite Hclean. fold v0. unfold bind at 1.
  rewrite (ddl_loop_ok _ s db1 Hclean) by (by rewrite Hclean).
  rewrite last_range, Hclean. fold v0.
  rewrite decide_True by lia. cbn [default from_option id].
  assert (range (v0 + 1) (T + 1) = (v0 + 1) :: range (v0 + 1 + 1) (T + 1))
    as Hr.
  { unfold range. rewrite seqZ_cons by lia. do 2 f_equal; lia. }
  rewrite Hr, for_each_cons. unfold bind at 1. unfold emit at 1.
  unfold bind at 1. unfold migrate_scripts. unfold bind at 1.
  rewrite (range_split (v0 + 1) v (T + 1)) by lia.
  match goal with |- context [for_each _ (scripts_of_version scripts) ?s1] =>
    destruct (pass_loop_fail scripts (range (v0 + 1) v) v
                (range (v + 1) (T + 1)) s1 db_a eq_refl Hpass Hfail)
      as (i & tr & -> & Hi)
  end.
  exists i. eexists. split; [reflexivity|].
  cbn [committed working schema_version]. split; [done|].
  split; [f_equal; lia | done].
Qed.

End EngineProperties.

Module EngineInvariants.
Import Migrations MigrationFacts Readings Passes PassFacts.

Section Preserved.
Context {S : Type} (I : session S → Prop).

Lemma bind_preserves {A B} (m : M S A) (k : A → M S B) s :
  I (m s).2 → (∀ a s', I s' → I (k a s').2) → I (bind m k s).2.
Proof.
  intros Hm Hk. unfold bind. destruct (m s) as [[a|e] s']; simpl in *; auto.
Qed.

Lemma for_each_preserves {A} (xs : list A) (body : A → M S unit) :
  (∀ x, x ∈ xs → ∀ s, I s → I (body x s).2) →
  ∀ s, I s → I (for_each xs body s).2.
Proof.
  induction xs as [|x xs IH]; intros Hbody s Hs; [done|].
  cbn [for_each]. apply bind_preserves.
  - apply Hbody; [left | done].
  - intros _ s' Hs'. apply IH; [|done].
    intros y Hy. apply Hbody. by right.
Qed.

End Preserved.

Lemma ddl_of_version_bounded lo hi v s :
  lo ≤ v ≤ hi → bounded lo hi s → bounded lo hi (ddl_of_version v s).2.
Proof.
  unfold bounded. intros Hv Hs.
  destruct (apply_step v (tables (working s))) as [db'|] eqn:E.
  - rewrite (ddl_of_version_ok _ _ _ E). simpl. lia.
  - destruct (ddl_of_version_fail _ _ E) as (e & tr & -> & _). simpl. lia.
Qed.

Lemma scripts_of_version_bounded scripts lo hi v s :
  bounded lo hi s → bounded lo hi (scripts_of_version scripts v s).2.
Proof.
  unfold bounded. intros Hs.
  destruct (apply_scripts (scripts_at scripts v) (tables (working s)))
    as [db'|] eqn:E.
  - rewrite (scripts_of_version_ok _ _ _ _ E). simpl. lia.
  - destruct (scripts_of_version_fail _ _ _ E) as (i & tr & -> & _).
    simpl. lia.
Qed.

Lemma migrate_scripts_bounded scripts lo hi a b s :
  bounded lo hi s → bounded lo hi (migrate_scripts scripts a b s).2.
Proof.
  intros Hs. unfold migrate_scripts.
  apply (bind_preserves (bounded lo hi)).
  - apply (for_each_preserves (bounded lo hi)); [|done].
    intros x _ s0. apply scripts_of_version_bounded.
  - intros _ s' Hs'. unfold bounded, close in *. simpl. lia.
Qed.

(** X14: whatever the outcome of [migrate] (success, a failing statement,
    a failing script), the schema version it leaves committed is at least
    the one it found and at most the larger of that one and the target,
    and nothing about the version is left pending. *)
Theorem migrate_never_lowers_the_version
    (T : Z) (scripts : gmap Z (list script)) (s : session store) :
  schema_version (working s) = schema_version (committed s) →
  let s' := (migrate T scripts s).2 in
  schema_version (committed s) ≤ schema_version (committed s')
    ≤ Z.max (schema_version (committed s)) T ∧
  schema_version (working s') = schema_version (committed s').
Proof.
  intros Hs s'.
  set (lo := schema_version (committed s)).
  set (hi := Z.max lo T).
  assert (bounded lo hi s') as [H1 H2]; [|by split].
  assert (bounded lo hi s) as Hb by (unfold bounded; subst lo hi; lia).
  subst s'. unfold migrate. unfold bind at 1. unfold read at 1.
  cbn beta iota. rewrite Hs. fold lo.
  apply (bind_preserves (bounded lo hi)).
  - apply (for_each_preserves (bounded lo hi)); [|done].
    intros v Hv s1. apply ddl_of_version_bounded.
    unfold range in Hv. apply elem_of_seqZ in Hv. subst hi. lia.
  - intros _ s1 Hs1.
    apply (for_each_preserves (bounded lo hi)); [|done].
    intros v _ s2 Hs2.
    apply (bind_preserves (bounded lo hi));
      [unfold bounded, emit in *; simpl; lia|].
    intros _ s3 Hs3.
    apply (bind_preserves (bounded lo hi)).
    + by apply migrate_scripts_bounded.
    + intros _ s4 Hs4. unfold bounded, emit in *. simpl. lia.
Qed.

End EngineInvariants.

Module StepProperties.
Import Migrations MigrationFacts Readings.

Lemma exec_on_table_keeps_columns c t t' col :
  exec_on_table c t = Some t' →
  has_column t col = true → has_column t' col = true.
Proof.
  unfold has_column. rewrite !bool_decide_eq_true.
  destruct c; simpl; case_match; intros [= <-] Hin; try done.
  cbn [columns]. rewrite fmap_app. apply elem_of_app. by left.
Qed.

Lemma exec_command_keeps_columns c db db' tn t col :
  exec_command c db = Some db' →
  db !! tn = Some t → has_column t col = true →
  ∃ t', db' !! tn = Some t' ∧ has_column t' col = true.
Proof.
  unfold exec_command. intros H Ht Hcol.
  destruct (db !! command_table c) as [t0|] eqn:E0; [|done].
  destruct (exec_on_table c t0) as [t1|] eqn:E1; [|done].
  injection H as <-.
  destruct (decide (command_table c = tn)) as [Heq|Hne].
  - rewrite Heq in *. rewrite lookup_insert_eq. exists t1. split; [done|].
    rewrite Ht in E0. injection E0 as <-.
    by eapply exec_on_table_keeps_columns.
  - rewrite lookup_insert_ne by done. by exists t.
Qed.

Lemma exec_all_keeps_columns cmds : ∀ db db' tn t col,
  exec_all cmds db = Some db' →
  db !! tn = Some t → has_column t col = true →
  ∃ t', db' !! tn = Some t' ∧ has_column t' col = true.
Proof.
  induction cmds as [|c cs IH]; intros db db' tn t col H Ht Hcol; simpl in H.
  - injection H as <-. by exists t.
  - destruct (exec_command c db) as [db1|] eqn:E; [|done].
    destruct (exec_command_keeps_columns _ _ _ _ _ _ E Ht Hcol)
      as (t1 & Ht1 & Hcol1).
    by eapply IH.
Qed.

Lemma exec_add_column_adds tn cn ty d db db' :
  exec_command (AlterTableAddColumn tn cn ty d) db = Some db' →
  ∃ t', db' !! tn = Some t' ∧ has_column t' cn = true.
Proof.
  unfold exec_command. cbn [command_table exec_on_table].
  destruct (db !! tn) as [t|]; [|done].
  destruct (has_column t cn); [done|]. intros [= <-].
  rewrite lookup_insert_eq. eexists. split; [done|].
  unfold has_column. cbn [columns]. apply bool_decide_eq_true.
  rewrite fmap_app. apply elem_of_app. right. cbn. left.
Qed.

Lemma exec_add_column_again tn cn ty d db t :
  db !! tn = Some t → has_column t cn = true →
  exec_command (AlterTableAddColumn tn cn ty d) db = None.
Proof.
  intros Ht Hcol. unfold exec_command. cbn [command_table exec_on_table].
  by rewrite Ht, Hcol.
Qed.

(** Every step of [MIGRATIONS] starts by adding a column. *)
Lemma steps_start_with_add_column v cmds :
  MIGRATIONS !! v = Some cmds →
  ∃ tn cn ty d rest, cmds = AlterTableAddColumn tn cn ty d :: rest.
Proof.
  unfold MIGRATIONS. intros H. apply elem_of_list_to_map_2 in H.
  repeat (apply elem_of_cons in H as [[= -> ->]|H]; [by eexists _, _, _, _, _|]).
  by apply elem_of_nil in H.
Qed.

(** X15: no step of [MIGRATIONS] can be applied twice.  On the database
    that a step has produced, the same step fails at its first statement,
    which adds a column that is now there: a migration that is run again
    from a version already applied does not change the tables a second
    time. *)
Theorem steps_cannot_be_applied_twice
    (v : Z) (db db' : gmap string table) :
  apply_step v db = Some db' →
  apply_step v db' = None.
Proof.
  unfold apply_step.
  destruct (MIGRATIONS !! v) as [cmds|] eqn:E; [|done].
  destruct (steps_start_with_add_column _ _ E)
    as (tn & cn & ty & d & rest & ->).
  cbn [exec_all]. intros H.
  destruct (exec_command (AlterTableAddColumn tn cn ty d) db)
    as [db1|] eqn:E1; [|done].
  destruct (exec_add_column_adds _ _ _ _ _ _ E1) as (t1 & Ht1 & Hcol1).
  destruct (exec_all_keeps_columns _ _ _ _ _ _ H Ht1 Hcol1)
    as (t' & Ht' & Hcol').
  by rewrite (exec_add_column_again _ _ _ _ _ _ Ht' Hcol').
Qed.

Lemma steps_cannot_be_applied_twice_witness :
  apply_step 2 (default ∅ (apply_step 2 db_v1)) = None.
Proof.
  apply (steps_cannot_be_applied_twice 2 db_v1).
  vm_compute. reflexivity.
Defined.

End StepProperties.

(** * Users, roles, studies and sites *)

Module TenancyProperties.
Import Tenancy.

Lemma head_filter_None_aux {A} (P : A → Prop) `{∀ x, Decision (P x)} (l : list A) :
  head (filter P l) = None ↔ ∀ x, x ∈ l → ¬ P x.
Proof.
  rewrite head_None. split.
  - intros Hnil x Hx HP.
    assert (x ∈ filter P l) as Hin by (by apply list_elem_of_filter).
    rewrite Hnil in Hin. by apply elem_of_nil in Hin.
  - intros Hall. destruct (filter P l) as [|x l'] eqn:E; [done|].
    assert (x ∈ filter P l) as [HP Hx]%list_elem_of_filter
      by (rewrite E; left).
    by destruct (Hall x Hx).
Qed.

Lemma head_filter_snoc_new_aux {A} (P : A → Prop) `{∀ x, Decision (P x)}
    (l : list A) (y : A) :
  head (filter P l) = None → P y → head (filter P (l ++ [y])) = Some y.
Proof.
  intros Hnone Hy. rewrite filter_app. apply head_None in Hnone.
  rewrite Hnone, filter_cons, decide_True by done. done.
Qed.

Lemma next_user_id_above (l : list User) u :
  u ∈ l → user_id u < next_user_id l.
Proof.
  unfold next_user_id. induction l as [|x l IH]; [by intros ?%elem_of_nil|].
  rewrite elem_of_cons, fmap_cons. cbn [foldr]. intros [->|Hin]; [lia|].
  specialize (IH Hin). lia.
Qed.

#[local] Arguments user_by_name : simpl never.
#[local] Arguments user_by_id : simpl never.
#[local] Arguments role_by_id : simpl never.
#[local] Arguments user_role_of : simpl never.
#[local] Arguments study_by_id : simpl never.
#[local] Arguments next_user_id : simpl never.

Lemma user_by_name_new n (w : store) u rs urs sm us :
  user_by_name n w = None → name u = n →
  user_by_name n (Store (users w ++ [u]) rs urs sm us) = Some u.
Proof.
  unfold user_by_name. cbn [users]. intros H Hn.
  by apply head_filter_snoc_new_aux.
Qed.

Section Properties.
Variable password_hash : string → string.

(** X16: [add_user].  If a user with the name exists, it raises and the
    rollback discards whatever was pending; otherwise it commits the user
    with the hashed password and returns the id the store assigned, which
    is above the id of every other user; names that were distinct stay
    distinct. *)
Theorem add_user_outcome (name_ password : string) (s : session store) :
  let w := working s in
  let user := {| user_id := next_user_id (users w); name := name_;
                 hashed_password := password_hash password |} in
  let w' := Store (users w ++ [user]) (roles w) (user_roles w)
                  (studies_metadata w) (user_sites w) in
  add_user password_hash name_ password s =
    (if is_some (user_by_name name_ w)
     then (Raise (TransactionDBException
                    "A user with the same name already exists"),
           Session (committed s) (committed s) (trace s ++ [EvRollback])
                   (ticks s))
     else (Ok (user_id user),
           Session w' w' (trace s ++ [EvCommit; EvRollback]) (ticks s))) ∧
  (∀ u, u ∈ users w → user_id u < user_id user) ∧
  (is_some (user_by_name name_ w) = false →
   NoDup (name <$> users w) → NoDup (name <$> users w')).
Proof.
  intros w user w'. split; [|split].
  - unfold add_user. run_all. fold w.
    destruct (user_by_name name_ w) as [u|] eqn:E; run_all; [done|].
    rewrite (user_by_name_new name_ w user) by done. run_all.
    by rewrite <- app_assoc.
  - intros u Hu. by apply next_user_id_above.
  - intros Hnew Hnd. subst w'. cbn [users]. rewrite fmap_app. cbn.
    apply NoDup_app. split; [done|]. split; [|apply NoDup_singleton].
    intros n Hn ->%list_elem_of_singleton.
    unfold user_by_name in Hnew.
    destruct (head _) eqn:E in Hnew; [done|].
    apply list_elem_of_fmap in Hn as (u & Hname & Hu).
    by apply (proj1 (head_filter_None_aux _ _) E u Hu).
Qed.

(** X17: adding the same user name twice in a row always ends with the
    duplicate-name error, whatever the passwords and whatever the store
    held: either the first call raised, or it committed the user and the
    second call found it. *)
Theorem add_user_twice_raises (name_ p1 p2 : string) (s : session store) :
  ∃ s',
    (add_user password_hash name_ p1 ;;; add_user password_hash name_ p2) s =
      (Raise (TransactionDBException
                "A user with the same name already exists"), s').
Proof.
  unfold bind at 1.
  destruct (add_user_outcome name_ p1 s) as (H1 & _ & _). rewrite H1. clear H1.
  destruct (is_some (user_by_name name_ (working s))) eqn:E; [by eexists|].
  match goal with |- context [add_user _ _ _ ?s1] =>
    destruct (add_user_outcome name_ p2 s1) as (H2 & _ & _); rewrite H2 end.
  cbn [working].
  rewrite (user_by_name_new name_ (working s)); [by eexists| |done].
  by destruct (user_by_name name_ (working s)).
Qed.

End Properties.

(** X18: [add_user_role] checks, in this order, that the role is not yet
    assigned to the user, that the user exists and that the role exists,
    and raises the matching error, rolled back, at the first check that
    fails; otherwise it commits the one new assignment. *)
Theorem add_user_role_outcome
    (user_id_ : Z) (role_id_ : string) (s : session store) :
  let w := working s in
  let raised msg : result unit * session store :=
    (Raise (TransactionDBException msg),
     Session (committed s) (committed s) (trace s ++ [EvRollback]) (ticks s)) in
  let w' := Store (users w) (roles w) (user_roles w ++ [(user_id_, role_id_)])
                  (studies_metadata w) (user_sites w) in
  add_user_role user_id_ role_id_ s =
    if is_some (user_role_of user_id_ role_id_ w)
    then raised "The role is already assigned to this user."
    else if negb (is_some (user_by_id user_id_ w))
    then raised "The user doesn't exist"
    else if negb (is_some (role_by_id role_id_ w))
    then raised "The role doesn't exist"
    else (Ok tt, Session w' w' (trace s ++ [EvCommit; EvRollback]) (ticks s)).
Proof.
  intros w raised w'. subst raised w' w.
  unfold add_user_role, pre_conditions_user_role. run_all.
  destruct (user_role_of user_id_ role_id_ (working s)); run_all; [done|].
  destruct (user_by_id user_id_ (working s)); run_all; [|done].
  destruct (role_by_id role_id_ (working s)); run_all; [|done].
  by rewrite <- app_assoc.
Qed.

Lemma user_role_of_spec i r (w : store) :
  is_some (user_role_of i r w) = bool_decide ((i, r) ∈ user_roles w).
Proof.
  unfold user_role_of. destruct (head _) as [p|] eqn:E; simpl.
  - symmetry. apply bool_decide_eq_true.
    apply head_Some_elem_of in E.
    apply list_elem_of_filter in E as [H2 E].
    apply list_elem_of_filter in E as [H1 E].
    destruct p; simpl in *. by subst.
  - symmetry. apply bool_decide_eq_false. intros Hin.
    apply head_None in E.
    assert ((i, r) ∈ filter (λ p : Z * string, p.2 = r)
              (filter (λ p : Z * string, p.1 = i) (user_roles w))) as H.
    { apply list_elem_of_filter. split; [done|].
      by apply list_elem_of_filter. }
    rewrite E in H. by apply elem_of_nil in H.
Qed.

(** X19: [revoke_user_role] raises when the role is not assigned and
    otherwise commits the assignments without that one; revoking right
    after a successful [add_user_role] gives back the assignments that
    were there before it. *)
Theorem revoke_user_role_undoes_add
    (user_id_ : Z) (role_id_ : string) (s : session store) :
  let w := working s in
  revoke_user_role user_id_ role_id_ s =
    (if is_some (user_role_of user_id_ role_id_ w)
     then (Ok tt,
           Session (Store (users w) (roles w)
                          (filter (λ p, p ≠ (user_id_, role_id_)) (user_roles w))
                          (studies_metadata w) (user_sites w))
                   (Store (users w) (roles w)
                          (filter (λ p, p ≠ (user_id_, role_id_)) (user_roles w))
                          (studies_metadata w) (user_sites w))
                   (trace s ++ [EvCommit; EvRollback]) (ticks s))
     else (Raise (TransactionDBException
                    "The role wasn't assigned to this user."),
           Session (committed s) (committed s) (trace s ++ [EvRollback])
                   (ticks s))) ∧
  (∀ s1, add_user_role user_id_ role_id_ s = (Ok tt, s1) →
     ∃ s2, revoke_user_role user_id_ role_id_ s1 = (Ok tt, s2) ∧
           working s2 = committed s2 ∧
           committed s2 = w).
Proof.
  intros w.
  assert (∀ s0 : session store,
    revoke_user_role user_id_ role_id_ s0 =
    (if is_some (user_role_of user_id_ role_id_ (working s0))
     then (Ok tt,
           Session (Store (users (working s0)) (roles (working s0))
                          (filter (λ p, p ≠ (user_id_, role_id_))
                                  (user_roles (working s0)))
                          (studies_metadata (working s0))
                          (user_sites (working s0)))
                   (Store (users (working s0)) (roles (working s0))
                          (filter (λ p, p ≠ (user_id_, role_id_))
                                  (user_roles (working s0)))
                          (studies_metadata (working s0))
                          (user_sites (working s0)))
                   (trace s0 ++ [EvCommit; EvRollback]) (ticks s0))
     else (Raise (TransactionDBException
                    "The role wasn't assigned to this user."),
           Session (committed s0) (committed s0) (trace s0 ++ [EvRollback])
                   (ticks s0)))) as Hrev.
  { intros s0. unfold revoke_user_role. run_all.
    destruct (user_role_of user_id_ role_id_ (working s0)); run_all; [|done].
    by rewrite <- app_assoc. }
  split; [apply Hrev|].
  intros s1 Hadd. rewrite add_user_role_outcome in Hadd. fold w in Hadd.
  destruct (is_some (user_role_of user_id_ role_id_ w)) eqn:E1; [done|].
  destruct (is_some (user_by_id user_id_ w)); [|done].
  destruct (is_some (role_by_id role_id_ w)); [|done].
  cbn in Hadd. injection Hadd as <-.
  rewrite Hrev. cbn [working user_roles users roles studies_metadata user_sites].
  rewrite user_role_of_spec in *. cbn [user_roles].
  rewrite bool_decide_eq_true_2 by (apply elem_of_app; right; left).
  eexists. split; [reflexivity|]. split; [reflexivity|].
  cbn [committed]. apply bool_decide_eq_false in E1.
  rewrite filter_app. rewrite (filter_cons _ (user_id_, role_id_)).
  rewrite decide_False by (by intros H; apply H).
  rewrite filter_nil, app_nil_r.
  assert (filter (λ p, p ≠ (user_id_, role_id_)) (user_roles w) = user_roles w)
    as ->.
  { revert E1. generalize (user_roles w). intros l Hl.
    induction l as [|x l IH]; [done|].
    rewrite filter_cons, decide_True.
    - f_equal. apply IH. intros H. apply Hl. by right.
    - intros ->. apply Hl. left. }
  by destruct w.
Qed.

(** X20: [remove_user] raises when no user has the id; otherwise it
    commits the users without that one: the id is no longer found, and
    every other user is found as before. *)
Theorem remove_user_outcome (user_id_ : Z) (s : session store) :
  let w := working s in
  let w' := Store (filter (λ u, user_id u ≠ user_id_) (users w))
                  (roles w) (user_roles w) (studies_metadata w)
                  (user_sites w) in
  remove_user user_id_ s =
    (if is_some (user_by_id user_id_ w)
     then (Ok tt, Session w' w' (trace s ++ [EvCommit; EvRollback]) (ticks s))
     else (Raise (TransactionDBException "The user doesn't exist"),
           Session (committed s) (committed s) (trace s ++ [EvRollback])
                   (ticks s))) ∧
  user_by_id user_id_ w' = None ∧
  (∀ i, i ≠ user_id_ → user_by_id i w' = user_by_id i w).
Proof.
  intros w w'. split; [|split].
  - subst w' w. unfold remove_user. run_all.
    destruct (user_by_id user_id_ (working s)); run_all; [|done].
    by rewrite <- app_assoc.
  - unfold user_by_id. apply head_filter_None_aux. subst w'. cbn [users].
    intros u [Hne _]%list_elem_of_filter. done.
  - intros i Hi. unfold user_by_id. subst w'. cbn [users]. f_equal.
    induction (users w) as [|u l IH]; [done|].
    rewrite !filter_cons. repeat case_decide; rewrite ?filter_cons;
      repeat case_decide; try congruence; by rewrite IH.
Qed.

Lemma append_sites uid : ∀ (site_ids : list Z) (s : session store),
  for_each site_ids (λ site_id,
    w <- read ;;
    put_working (Store (users w) (roles w) (user_roles w)
                       (studies_metadata w)
                       (user_sites w ++ [(uid, site_id)]))) s =
    (Ok tt,
     Session (committed s)
             (Store (users (working s)) (roles (working s))
                    (user_roles (working s)) (studies_metadata (working s))
                    (user_sites (working s) ++ ((λ x, (uid, x)) <$> site_ids)))
             (trace s) (ticks s)).
Proof.
  induction site_ids as [|x l IH]; intros s.
  - cbn. unfold ret. rewrite app_nil_r. by destruct s as [? [] ? ?].
  - cbn [for_each]. unfold bind at 1. unfold bind at 1. unfold read at 1.
    unfold put_working at 1. rewrite IH. cbn. by rewrite <- app_assoc.
Qed.

(** X21: [set_user_sites] replaces the sites of the user by the ones
    given, in the order given, and commits; [get_user_sites] then returns
    exactly those, and returns for every other user what it returned
    before; it does not check that the user exists. *)
Theorem set_user_sites_then_get
    (user_id_ : Z) (site_ids : list Z) (s : session store) :
  ∃ s',
    set_user_sites user_id_ site_ids s = (Ok tt, s') ∧
    working s' = committed s' ∧
    committed s' =
      Store (users (working s)) (roles (working s)) (user_roles (working s))
            (studies_metadata (working s))
            (filter (λ p, p.1 ≠ user_id_) (user_sites (working s)) ++
             ((λ x, (user_id_, x)) <$> site_ids)) ∧
    (get_user_sites user_id_ s').1 = Ok ((λ x, (user_id_, x)) <$> site_ids) ∧
    (∀ u, u ≠ user_id_ → (get_user_sites u s').1 = (get_user_sites u s).1).
Proof.
  unfold set_user_sites, get_user_sites, try_finally.
  unfold bind at 1. unfold bind at 1. unfold read at 1. unfold ret at 1.
  unfold commit at 1. unfold bind at 1. unfold read at 1.
  unfold bind at 1. unfold put_working at 1. unfold bind at 1.
  rewrite append_sites. unfold commit at 1. unfold rollback at 1.
  cbn [committed working trace ticks users roles user_roles
       studies_metadata user_sites].
  eexists. split; [reflexivity|]. split; [reflexivity|].
  split; [reflexivity|]. run.
  assert (∀ (l : list (Z * Z)) u,
            filter (λ p : Z * Z, p.1 = u) (filter (λ p : Z * Z, p.1 ≠ user_id_) l)
            = if decide (u = user_id_) then []
              else filter (λ p : Z * Z, p.1 = u) l) as Hold.
  { intros l u. induction l as [|p l IH]; [by case_decide|].
    rewrite !filter_cons. repeat case_decide; rewrite ?filter_cons;
      repeat case_decide; try congruence; by rewrite ?IH. }
  assert (∀ (l : list Z) u,
            filter (λ p : Z * Z, p.1 = u) ((λ x, (user_id_, x)) <$> l)
            = if decide (u = user_id_) then (λ x, (user_id_, x)) <$> l
              else []) as Hnew.
  { intros l u. induction l as [|x l IH]; [by case_decide|].
    rewrite fmap_cons, filter_cons. cbn [fst].
    case_decide; subst; rewrite IH; case_decide; try congruence; done. }
  split.
  - by rewrite filter_app, Hold, Hnew, !decide_True.
  - intros u Hu. by rewrite filter_app, Hold, Hnew, !decide_False, app_nil_r.
Qed.

Lemma study_by_id_updated sid fresh (l : list StudiesMetadata) us rs urs ss :
  study_id fresh = sid →
  is_some (head (filter (λ m, study_id m = sid) l)) = true →
  study_by_id sid
    (Store us rs urs
           ((λ m, if bool_decide (study_id m = sid) then fresh else m) <$> l)
           ss) = Some fresh.
Proof.
  intros Hf. unfold study_by_id. cbn [studies_metadata].
  induction l as [|m l IH]; [done|].
  rewrite fmap_cons, !filter_cons.
  case_bool_decide as Hm.
  - rewrite decide_True by done. by rewrite decide_True.
  - rewrite decide_False by done. rewrite decide_False by done. exact IH.
Qed.

(** X22: [add_study_metadata] raises when the study is known and
    [overwrite] is not set, leaving the store as committed; otherwise it
    commits the study with the origin and time given, as a new row when it
    was unknown and in place when it was known, and [get_study_metadata]
    then returns it. *)
Theorem add_study_metadata_outcome
    (study_id_ origin_ : string) (c_move_time_ : Z) (overwrite : bool)
    (s : session store) :
  let w := working s in
  let fresh := {| study_id := study_id_; origin := origin_;
                  c_move_time := c_move_time_ |} in
  let w' :=
    Store (users w) (roles w) (user_roles w)
          (if is_some (study_by_id study_id_ w)
           then (λ m, if bool_decide (study_id m = study_id_)
                      then fresh else m) <$> studies_metadata w
           else studies_metadata w ++ [fresh])
          (user_sites w) in
  let s' := Session w' w' (trace s ++ [EvCommit; EvRollback]) (ticks s) in
  add_study_metadata study_id_ origin_ c_move_time_ overwrite s =
    (if is_some (study_by_id study_id_ w) && negb overwrite
     then (Raise (TransactionDBException "Study was already sent to mdbrain. "),
           Session (committed s) (committed s) (trace s ++ [EvRollback])
                   (ticks s))
     else (Ok tt, s')) ∧
  (get_study_metadata study_id_ s').1 = Ok (Some fresh) ∧
  length (studies_metadata w') =
    (if is_some (study_by_id study_id_ w)
     then length (studies_metadata w)
     else S (length (studies_metadata w))).
Proof.
  intros w fresh w' s'. subst s' w' fresh w. split; [|split].
  - unfold add_study_metadata. run_all.
    destruct (study_by_id study_id_ (working s)), overwrite; run_all;
      try done; by rewrite <- app_assoc.
  - unfold get_study_metadata. run_all. f_equal.
    destruct (study_by_id study_id_ (working s)) as [m|] eqn:E; cbn [is_some].
    + apply study_by_id_updated; [done|].
      unfold study_by_id in E. by rewrite E.
    + unfold study_by_id in *. cbn [studies_metadata].
      by apply head_filter_snoc_new_aux.
  - cbn [studies_metadata].
    destruct (study_by_id study_id_ (working s)); cbn [is_some].
    + by rewrite length_fmap.
    + rewrite length_app. simpl. lia.
Qed.

(** X23: [add_role] raises when a role with the id exists, leaving the
    store as committed; otherwise it commits the role with the description
    and permissions given, after which the id is found and no other role
    has changed. *)
Theorem add_role_outcome
    (role_id_ role_description : string) (permissions_ : Z)
    (s : session store) :
  let w := working s in
  let role := {| role_id := role_id_; description := role_description;
                 permissions := permissions_ |} in
  let w' := Store (users w) (roles w ++ [role]) (user_roles w)
                  (studies_metadata w) (user_sites w) in
  add_role role_id_ role_description permissions_ s =
    (if is_some (role_by_id role_id_ w)
     then (Raise (TransactionDBException "The role already exists"),
           Session (committed s) (committed s) (trace s ++ [EvRollback])
                   (ticks s))
     else (Ok tt, Session w' w' (trace s ++ [EvCommit; EvRollback]) (ticks s))) ∧
  (is_some (role_by_id role_id_ w) = false →
   role_by_id role_id_ w' = Some role ∧
   ∀ r, r ≠ role_id_ → role_by_id r w' = role_by_id r w).
Proof.
  intros w role w'. subst w' role w. split.
  - unfold add_role. run_all.
    destruct (role_by_id role_id_ (working s)); run_all; [done|].
    by rewrite <- app_assoc.
  - intros Hnew. unfold role_by_id in *. cbn [roles]. split.
    + apply head_filter_snoc_new_aux; [|done].
      by destruct (head _) eqn:E in Hnew.
    + intros r Hr. rewrite filter_app, filter_cons.
      rewrite decide_False by (cbn; congruence).
      by rewrite filter_nil, app_nil_r.
Qed.

End TenancyProperties.

(** * Instances *)

Module LifecycleInstances.
Import Lifecycle Queue Readings Transitions.

Lemma unknown_id_witness :
  set_processing sample_clock 99 "report" None 0 (clean_session three_waiting) =
    (Raise not_found, Session three_waiting three_waiting [EvRollback] 0).
Proof.
  pose proof (TransitionProperties.unknown_id_raises_and_rolls_back
                sample_clock (clean_session three_waiting) 99) as H.
  destruct H as [H _].
  - vm_compute. reflexivity.
  - exact (H "report" None 0).
Defined.

Lemma set_failed_witness :
  ∃ s', set_failed sample_clock 2 (Some "boom") (clean_session three_waiting)
        = (Ok tt, s') ∧ working s' = committed s'.
Proof.
  destruct (TransitionProperties.set_failed_records_cause sample_clock
              (clean_session three_waiting) 2 (queued_in "waiting")
              (Some "boom")) as (s' & H1 & H2 & _).
  - vm_compute. reflexivity.
  - by exists s'.
Defined.

Lemma set_queued_witness :
  ∃ s', set_queued 2 None "report" pending_session = (Ok tt, s') ∧
        working s' = committed s'.
Proof.
  destruct (TransitionProperties.set_queued_requeues pending_session 2
              (queued_in "report") None "report") as (s' & H1 & H2 & _).
  - vm_compute. reflexivity.
  - by exists s'.
Defined.

Lemma leaving_the_queue_witness :
  ∃ s', set_failed sample_clock 1 None (clean_session three_waiting)
        = (Ok tt, s') ∧ not_peeked 1 s'.
Proof.
  destruct (TransitionProperties.leaving_the_queue sample_clock
              (clean_session three_waiting) 1 (queued_in "waiting"))
    as (_ & H & _).
  - vm_compute. reflexivity.
  - exact (H None).
Defined.

Lemma skipping_witness :
  ∃ s1, set_skipped 1 (Some "not needed") (clean_session three_waiting)
        = (Ok tt, s1) ∧ working s1 = committed s1.
Proof.
  destruct (TransitionProperties.skipping_and_cancelling_keep_the_queue
              (clean_session three_waiting) 1 (queued_in "waiting")
              (Some "not needed")) as (s1 & s2 & H1 & _ & H3 & _).
  - vm_compute. reflexivity.
  - by exists s1.
Defined.

Lemma create_transaction_witness :
  ∃ s', create_transaction sample_clock sample_json sample_index
          (new_transaction "{}") (Some 7) None None None "waiting" "queued"
          (clean_session store_with_user) = (Ok 4, s') ∧
        user_transactions (committed s') = [(7, 4)].
Proof.
  destruct (CreationProperties.create_transaction_inserts sample_clock
              sample_json sample_index (clean_session store_with_user)
              (new_transaction "{}") (Some 7) None None None "waiting"
              "queued"
              (assign_creation_date (Some 1000) (queued_in "waiting")))
    as (s' & H1 & _ & H3 & _).
  - intros _. vm_compute. reflexivity.
  - vm_compute. reflexivity.
  - exists s'. split; [exact H1|]. by rewrite H3.
Defined.

Lemma create_transaction_unknown_user_witness :
  ∃ s', create_transaction sample_clock sample_json sample_index
          (new_transaction "{}") (Some 8) None None None "waiting" "queued"
          (clean_session store_with_user) =
        (Raise (TransactionDBException "The provided user doesn't exist"), s')
        ∧ is_Some (transactions (committed s') !! 4)
        ∧ transactions (working s') !! 4 = None.
Proof.
  destruct (CreationProperties.create_transaction_unknown_user sample_clock
              sample_json sample_index (clean_session store_with_user)
              (new_transaction "{}") (Some 8) None None None "waiting"
              "queued")
    as (s' & H1 & H2 & H3).
  - reflexivity.
  - vm_compute. intros H. discriminate H.
  - exists s'. split; [exact H1|]. rewrite H2, H3. split.
    + eexists. apply lookup_insert_eq.
    + vm_compute. reflexivity.
Defined.

Lemma one_field_setters_witness :
  ∃ s', (set_status 3 (Some "reviewed") ;;; get_transaction 3)
          (clean_session three_waiting) =
        (Ok (assign_status (Some "reviewed") (queued_in "waiting")), s').
Proof.
  destruct (SetterProperties.one_field_setters_read_back
              (clean_session three_waiting) 3 (queued_in "waiting"))
    as (H & _).
  - vm_compute. reflexivity.
  - eexists. exact (H (Some "reviewed")).
Defined.

End LifecycleInstances.

Module MigrationInstances.
Import Migrations Readings Passes.

Lemma migrate_succeeds_witness :
  ∃ s', migrate 5 {[ 5 := [bump_progress] ]} (clean_session (Store db_v3 3))
        = (Ok tt, s') ∧
        schema_version (committed s') = 5.
Proof.
  destruct (EngineProperties.migrate_succeeds 5 {[ 5 := [bump_progress] ]}
              (clean_session (Store db_v3 3))
              (default ∅ (apply_steps [4; 5] db_v3))
              (default ∅ (apply_passes {[ 5 := [bump_progress] ]} [4; 5] 2
                            (default ∅ (apply_steps [4; 5] db_v3)))))
    as (s' & H1 & H2 & _).
  - reflexivity.
  - vm_compute. reflexivity.
  - vm_compute. reflexivity.
  - exists s'. split; [exact H1|]. by rewrite H2.
Defined.

Lemma migrate_at_target_witness :
  migrate 5 ∅ (clean_session (Store db_v1 5)) =
    (Ok tt, clean_session (Store db_v1 5)).
Proof.
  apply (EngineProperties.migrate_at_target_is_idle 5 ∅
           (clean_session (Store db_v1 5))).
  simpl. lia.
Defined.

Lemma migrate_script_failure_witness :
  ∃ i s', migrate 5 {[ 5 := [bump_progress; failing_script] ]}
            (clean_session (Store db_v3 3)) = (Raise (ScriptError 5 i), s') ∧
          schema_version (committed s') = 5.
Proof.
  destruct (EngineProperties.migrate_script_failure 5
              {[ 5 := [bump_progress; failing_script] ]}
              (clean_session (Store db_v3 3)) 5
              (default ∅ (apply_steps [4; 5] db_v3))
              (default ∅ (apply_steps [4; 5] db_v3)))
    as (i & s' & H1 & _ & H2 & _).
  - reflexivity.
  - simpl. lia.
  - vm_compute. reflexivity.
  - vm_compute. reflexivity.
  - vm_compute. reflexivity.
  - exists i, s'. split; [exact H1|]. by rewrite H2.
Defined.

Lemma migrate_never_lowers_witness :
  (2 <=? schema_version
           (committed (migrate 5 ∅
                         (clean_session (Store db_v2_with_cancelled 2))).2))
  = true.
Proof.
  destruct (EngineInvariants.migrate_never_lowers_the_version 5 ∅
              (clean_session (Store db_v2_with_cancelled 2)))
    as [[H _] _].
  - reflexivity.
  - apply Z.leb_le. exact H.
Defined.

End MigrationInstances.
